(** * Magic-HTML-API: the extraction endpoint of [api/extract.py]

    A shallow embedding of the service's own code: the fetcher
    ([fetch_url]), the markdown clean-up ([clean_markdown]), the format
    converter ([convert_content]), the page-type classifier
    ([detect_html_type]) and the endpoint ([extract_content]).

    Python's [str] is a sequence of Unicode code points, modelled as
    [list N]; [bytes] is a list of bytes.  Exceptions are values of [exn]
    threaded through the [result] monad.  The libraries the service calls
    (httpx, the codecs, chardet, BeautifulSoup's parser, markdownify,
    magic_html and CPython's case table outside ASCII) are the fields of the
    class [Externals]: every property below holds whatever they compute. *)

From Stdlib Require Import String Ascii DecimalString.
From Stdlib Require Import List NArith ZArith Bool Lia.
Import ListNotations.

Set Warnings "-register-all".

Set Implicit Arguments.

(** ** Python strings *)

Definition str := list N.
Definition bytes := list N.

(** [decode_utf8] reads a literal of this file, written in UTF-8, as the
    code points it denotes. *)
Fixpoint decode_utf8 (need : nat) (acc : N) (bs : list N) : str :=
  match bs with
  | [] => []
  | b :: bs' =>
    match need with
    | O =>
      if (b <? 128)%N then b :: decode_utf8 0 0 bs'
      else if (b <? 224)%N then decode_utf8 1 (b - 192) bs'
      else if (b <? 240)%N then decode_utf8 2 (b - 224) bs'
      else decode_utf8 3 (b - 240) bs'
    | S O => (acc * 64 + (b - 128))%N :: decode_utf8 0 0 bs'
    | S k => decode_utf8 k (acc * 64 + (b - 128))%N bs'
    end
  end.

Definition py (s : string) : str :=
  decode_utf8 0 0 (map N_of_ascii (list_ascii_of_string s)).

Definition str_eqb (a b : str) : bool :=
  if list_eq_dec N.eq_dec a b then true else false.

(** [bool(s)]: the empty string is falsy. *)
Definition truthy (s : str) : bool :=
  match s with [] => false | _ => true end.

(** [s.startswith(p)] *)
Fixpoint startswith (p s : str) : bool :=
  match p, s with
  | [], _ => true
  | _ :: _, [] => false
  | a :: p', b :: s' => (a =? b)%N && startswith p' s'
  end.

(** [p in s] for two strings *)
Fixpoint contains (p s : str) : bool :=
  startswith p s || match s with [] => false | _ :: s' => contains p s' end.

(** [x in l] for a list of strings *)
Definition in_list (x : str) (l : list str) : bool := existsb (str_eqb x) l.

(** [sep.join(l)] *)
Fixpoint join (sep : str) (l : list str) : str :=
  match l with
  | [] => []
  | [x] => x
  | x :: l' => x ++ sep ++ join sep l'
  end.

(** [s.split(sep)] for a non-empty [sep]: the pieces between the leftmost
    non-overlapping occurrences of [sep].  [skip] counts the code points of
    an occurrence still to be passed over, [cur] holds the current piece in
    reverse. *)
Fixpoint split_from (sep : str) (skip : nat) (cur : str) (s : str) : list str :=
  match s with
  | [] => [rev cur]
  | c :: s' =>
    match skip with
    | S k => split_from sep k cur s'
    | O =>
      if startswith sep s
      then rev cur :: split_from sep (length sep - 1) [] s'
      else split_from sep 0 (c :: cur) s'
    end
  end.

Definition split (sep s : str) : list str := split_from sep 0 [] s.

(** The code points [str.isspace] accepts; [strip()] removes them from both
    ends. *)
Definition isspace (c : N) : bool :=
  ((9 <=? c) && (c <=? 13) || (28 <=? c) && (c <=? 32) || (c =? 133)
   || (c =? 160) || (c =? 5760) || (8192 <=? c) && (c <=? 8202)
   || (c =? 8232) || (c =? 8233) || (c =? 8239) || (c =? 8287)
   || (c =? 12288))%N.

Fixpoint lstrip (s : str) : str :=
  match s with
  | [] => []
  | c :: s' => if isspace c then lstrip s' else s
  end.

Definition rstrip (s : str) : str := rev (lstrip (rev s)).

Definition strip (s : str) : str := rstrip (lstrip s).

(** ASCII letters are lowered by arithmetic. *)
Definition ascii_lower (c : N) : N :=
  if ((65 <=? c) && (c <=? 90))%N then (c + 32)%N else c.

(** [str(n)] for a non-negative integer *)
Definition str_of_Z (n : Z) : str :=
  map N_of_ascii (list_ascii_of_string (NilEmpty.string_of_uint (N.to_uint (Z.to_N n)))).

(** ** Regular-expression substitutions of [clean_markdown] *)

(** [re.sub(c{min,}, repl, s)] for a single code point [c]: the match is
    greedy, so it takes a whole maximal run of [c]; a run shorter than [min]
    is kept.  [n] is the length of the run read so far. *)
Definition flush_run (c : N) (min : nat) (repl : str) (n : nat) : str :=
  if (min <=? n)%nat then repl else repeat c n.

Fixpoint sub_run_from (c : N) (min : nat) (repl : str) (n : nat) (s : str) : str :=
  match s with
  | [] => flush_run c min repl n
  | x :: s' =>
    if (x =? c)%N then sub_run_from c min repl (S n) s'
    else flush_run c min repl n ++ x :: sub_run_from c min repl 0 s'
  end.

Definition sub_run (c : N) (min : nat) (repl : str) (s : str) : str :=
  sub_run_from c min repl 0 s.

Definition NL : N := 10.
Definition EQUALS : N := 61.
Definition RPAREN : N := 41.

(** Whether the lazy [(.*?)\)] matches at the start of [s]: a [)] comes
    before any newline ([.] does not match a newline). *)
Fixpoint closes_on_line (s : str) : bool :=
  match s with
  | [] => false
  | c :: s' =>
    if (c =? RPAREN)%N then true
    else if (c =? NL)%N then false
    else closes_on_line s'
  end.

(** [re.sub(r'!\[\]\((.*?)\)', r'![图片](\1)', s)].  From the left, an
    occurrence of [![](] whose group closes on the same line is rewritten;
    [copying] says that the scan is inside such a match, whose text up to
    and including the first [)] is copied without being scanned again. *)
Fixpoint relabel_images_from (copying : bool) (s : str) : str :=
  match s with
  | [] => []
  | c :: s' =>
    if copying then c :: relabel_images_from (negb (c =? RPAREN)%N) s'
    else
      match s' with
      | c2 :: c3 :: c4 :: rest =>
        if startswith (py "![](") s && closes_on_line rest
        then py "![图片](" ++ relabel_images_from true rest
        else c :: relabel_images_from false s'
      | _ => c :: relabel_images_from false s'
      end
  end.

Definition relabel_images (s : str) : str := relabel_images_from false s.

(** ** [clean_markdown] *)
Definition clean_markdown (text : str) : str :=
  let text := sub_run NL 3 [NL; NL] text in
  let text := join [NL] (map strip (split [NL] text)) in
  let text := sub_run EQUALS 3 [] text in
  let text := relabel_images text in
  strip text.

(** ** Exceptions and results *)

(** The exceptions the service meets; all of them are subclasses of
    Python's [Exception], [HTTPException] (fastapi) included. *)
Inductive exn : Type :=
| HTTPException (status_code : Z) (detail : str)
| RequestError (msg : str)        (* httpx: the request could not be made *)
| HTTPStatusError (msg : str)     (* httpx: [raise_for_status] *)
| UnicodeDecodeError (msg : str)
| LookupError (msg : str)         (* unknown codec name *)
| LibraryError (msg : str).       (* raised inside a library call *)

(** [str(e)] *)
Definition exn_str (e : exn) : str :=
  match e with
  | HTTPException code detail => str_of_Z code ++ py ": " ++ detail
  | RequestError m | HTTPStatusError m | UnicodeDecodeError m
  | LookupError m | LibraryError m => m
  end.

Definition is_UnicodeDecodeError (e : exn) : bool :=
  match e with UnicodeDecodeError _ => true | _ => false end.

Inductive result (A : Type) : Type :=
| Ok (a : A)
| Raise (e : exn).
Arguments Ok {A} a.
Arguments Raise {A} e.

Definition bind {A B : Type} (c : result A) (k : A -> result B) : result B :=
  match c with
  | Ok a => k a
  | Raise e => Raise e
  end.

(** [try: c  except <class>: h]; [handles] is the class test, and an
    exception raised by the handler itself leaves the statement. *)
Definition try_except {A : Type} (c : result A) (handles : exn -> bool)
    (h : exn -> result A) : result A :=
  match c with
  | Ok a => Ok a
  | Raise e => if handles e then h e else Raise e
  end.

(** [except Exception] and the bare [except:] handle every [exn]. *)
Definition any_exception (e : exn) : bool := true.

Declare Scope result_scope.
Delimit Scope result_scope with result.
Notation "x <- c ;; k" := (bind c (fun x => k))
  (at level 61, c at next level, right associativity) : result_scope.
Open Scope result_scope.

(** ** Data of the libraries *)

(** What the fetcher reads of an httpx response.  [content_type] is
    [headers.get('content-type')]. *)
Record Response : Type := {
  status_code_of : Z;
  content_type : option str;
  content : bytes
}.

(** A parsed document.  A tag carries its [class] attribute, a list of
    tokens, and its [id], when it has them; [Comment] stands for the string
    classes that [get_text] leaves out. *)
Inductive PageElement : Type :=
| NavigableString (s : str)
| Comment (s : str)
| Tag (name : str) (class_ : option (list str)) (id : option str)
      (contents : list PageElement).

Definition soup := list PageElement.

(** The elements below and including [e], in document order. *)
Fixpoint descendants (e : PageElement) : list PageElement :=
  e :: match e with
       | Tag _ _ _ cs => flat_map descendants cs
       | _ => []
       end.

Definition elements (s : soup) : list PageElement := flat_map descendants s.

(** [soup.find_all(class_=True)] then [element.get('class', [])] *)
Definition class_lists (s : soup) : list (list str) :=
  flat_map (fun e => match e with
                     | Tag _ (Some cl) _ _ => [cl]
                     | _ => []
                     end) (elements s).

(** [soup.find_all(id=True)] then [element.get('id', '')] *)
Definition ids (s : soup) : list str :=
  flat_map (fun e => match e with
                     | Tag _ _ (Some i) _ => [i]
                     | _ => []
                     end) (elements s).

(** The strings among [l] that [get_text] reads. *)
Definition strings_of (l : list PageElement) : list str :=
  flat_map (fun e => match e with
                     | NavigableString t => [t]
                     | _ => []
                     end) l.

(** The text nodes, in document order. *)
Definition text_nodes (s : soup) : list str := strings_of (elements s).

(** [soup.get_text(separator=sep, strip=True)]: every text node is stripped,
    the empty ones are dropped, the rest joined. *)
Definition text_pieces (s : soup) : list str :=
  filter truthy (map strip (text_nodes s)).

Definition get_text (sep : str) (s : soup) : str :=
  join sep (text_pieces s).

(** The value stored under a key of the extractor's result: a string, or
    another object, of which only [str(v)] matters. *)
Inductive pyobj : Type :=
| PyStr (s : str)
| PyOther (repr : str).

(** [str(v)] *)
Definition py_str (v : pyobj) : str :=
  match v with
  | PyStr s => s
  | PyOther r => r
  end.

(** What [extractor.extract] returns: a dict with string keys, or something
    that is not a dict. *)
Inductive pydata : Type :=
| Dict (items : list (str * pyobj))
| NotDict.

(** [d.get(key, default)] *)
Fixpoint dict_get (items : list (str * pyobj)) (key : str) (default : pyobj) : pyobj :=
  match items with
  | [] => default
  | (k, v) :: items' => if str_eqb k key then v else dict_get items' key default
  end.

(** ** The libraries *)
Class Externals : Type := {
  (** what a code point above ASCII lowers to, at index [i] of the whole
      string (the final-sigma rule looks at the neighbours) *)
  lower_ucs4 : str -> nat -> N -> str;
  (** [await client.get(url)] *)
  client_get : str -> result Response;
  (** [b.decode(codec)]; raises [UnicodeDecodeError] or [LookupError] *)
  decode : bytes -> str -> result str;
  (** [chardet.detect(b)['encoding']] *)
  chardet_detect : bytes -> option str;
  (** the message of the error that [raise_for_status] raises for a
      response *)
  status_error_text : Response -> str;
  (** [BeautifulSoup(html, 'html.parser')]; the parser raises for markup
      that it refuses *)
  BeautifulSoup : str -> result soup;
  (** [markdownify(html)] *)
  md : str -> result str;
  (** [extractor.extract(html, base_url=url, html_type=t)] *)
  extractor_extract : str -> str -> str -> result pydata
}.

Section Service.
Context {E : Externals}.

(** [s.lower()]: code point by code point. *)
Fixpoint lower_from (whole : str) (i : nat) (s : str) : str :=
  match s with
  | [] => []
  | c :: s' =>
    (if (c <? 128)%N then [ascii_lower c] else lower_ucs4 whole i c)
      ++ lower_from whole (S i) s'
  end.

Definition lower (s : str) : str := lower_from s 0 s.

(** ** [fetch_url] *)

(** [response.raise_for_status()]: only a 2xx status passes. *)
Definition raise_for_status (r : Response) : result unit :=
  if ((200 <=? status_code_of r) && (status_code_of r <? 300))%Z then Ok tt
  else Raise (HTTPStatusError (status_error_text r)).

(** [content_type.split('charset=')[-1].split(';')[0]] *)
Definition charset_of (content_type : str) : str :=
  hd [] (split (py ";") (last (split (py "charset=") content_type) [])).

(** The charset named by the header, when the lowered header contains
    [charset=]. *)
Definition declared_charset (response : Response) : option str :=
  let content_type :=
    lower (match content_type response with Some v => v | None => [] end) in
  if contains (py "charset=") content_type
  then Some (charset_of content_type)
  else None.

(** The first [try] of the fetcher: the text decoded with the charset of
    the header, or [None] when the header names none or the attempt raises
    (the bare [except: pass]). *)
Definition decode_declared (response : Response) : option str :=
  match declared_charset response with
  | Some charset =>
    match decode (content response) charset with
    | Ok text => Some text
    | Raise _ => None
    end
  | None => None
  end.

(** The codec of the handler of [UnicodeDecodeError]: the detected
    encoding, with GB18030 in place of GB2312 and GBK, or UTF-8 when the
    detection gives nothing ([encoding or 'utf-8']). *)
Definition detected_encoding (content : bytes) : str :=
  let encoding := chardet_detect content in
  let encoding :=
    match encoding with
    | Some e =>
      if truthy e && in_list (lower e) [py "gb2312"; py "gbk"]
      then Some (py "gb18030") else encoding
    | None => encoding
    end in
  match encoding with
  | Some e => if truthy e then e else py "utf-8"
  | None => py "utf-8"
  end.

Definition decode_detected (content : bytes) : result str :=
  decode content (detected_encoding content).

Definition fetch_url (url : str) : result str :=
  try_except
    (response <- client_get url ;;
     _ <- raise_for_status response ;;
     match decode_declared response with
     | Some text => Ok text
     | None =>
       try_except (decode (content response) (py "utf-8"))
         is_UnicodeDecodeError
         (fun _ => decode_detected (content response))
     end)
    any_exception
    (fun e => Raise (HTTPException 400 (py "Error fetching URL: " ++ exn_str e))).

(** ** [convert_content] *)
Definition convert_content (html : pyobj) (output_format : str) : result str :=
  let html := py_str html in
  if str_eqb output_format (py "html") then Ok html
  else if str_eqb output_format (py "markdown") then
    markdown <- md html ;;
    Ok (clean_markdown markdown)
  else if str_eqb output_format (py "text") then
    soup <- BeautifulSoup html ;;
    Ok (get_text [NL] soup)
  else Ok html.

(** ** [extract_html_content] *)
Definition extract_html_content (data : pydata) : pyobj :=
  match data with
  | Dict items => dict_get items (py "html") (PyStr [])
  | NotDict => PyStr []
  end.

(** ** [detect_html_type] *)
Definition platform_domains : list str :=
  [py "mp.weixin.qq.com"; py "weixin.qq.com"].

Definition forum_indicators : list str :=
  [py "forum"; py "topic"; py "thread"; py "post"; py "reply"; py "comment";
   py "discuss"; py "论坛"; py "帖子"; py "回复"; py "评论"; py "讨论"].

(** The list built by the two loops, then joined and lowered. *)
Definition classes_and_ids (s : soup) : str :=
  lower (join (py " ") (concat (class_lists s) ++ ids s)).

Definition detect_html_type (html url : str) : result str :=
  let url_lower := lower url in
  if existsb (fun domain => contains domain url_lower) platform_domains
  then Ok (py "weixin")
  else
    soup <- BeautifulSoup html ;;
    if existsb (fun indicator => contains indicator (classes_and_ids soup))
         forum_indicators
    then Ok (py "forum")
    else Ok (py "article").

(** ** The endpoint [/api/extract] *)

(** The values the [Literal] type of [output_format] admits. *)
Inductive Format : Type := html_format | markdown_format | text_format.

Definition format_str (f : Format) : str :=
  match f with
  | html_format => py "html"
  | markdown_format => py "markdown"
  | text_format => py "text"
  end.

(** The JSON object of a successful response. *)
Record Payload : Type := {
  url_of : str;
  content_of : str;
  format_of : str;
  type_of : str;
  success : bool
}.

(** [output_format] is [None] when the query gives none: the default of the
    signature, ["text"], is taken. *)
Definition or_default (output_format : option Format) : Format :=
  match output_format with
  | Some f => f
  | None => text_format
  end.

Definition extract_content (url : str) (output_format : option Format)
  : result Payload :=
  let output_format := or_default output_format in
  try_except
    (html <- fetch_url url ;;
     html_type <- detect_html_type html url ;;
     extracted_data <- extractor_extract html url html_type ;;
     let html_content := extract_html_content extracted_data in
     converted_content <- convert_content html_content (format_str output_format) ;;
     Ok {| url_of := url;
           content_of := converted_content;
           format_of := format_str output_format;
           type_of := html_type;
           success := true |})
    any_exception
    (fun e => Raise (HTTPException 500 (exn_str e))).

(** The status the client sees: 200 for a payload, the code of the
    [HTTPException] otherwise. *)
Definition http_status {A : Type} (r : result A) : Z :=
  match r with
  | Ok _ => 200
  | Raise (HTTPException code _) => code
  | Raise _ => 500
  end.

End Service.

(** ** Statements of the specification *)

Section Statements.
Context {E : Externals}.

(** The fetch itself fails: the request raises, or the status is not 2xx. *)
Definition fetch_failure (url : str) : Prop :=
  (exists e, client_get url = Raise e)
  \/ (exists r, client_get url = Ok r
                /\ ~ (200 <= status_code_of r < 300)%Z).

(** The fetch succeeds with the response [r]. *)
Definition fetched (url : str) (r : Response) : Prop :=
  client_get url = Ok r /\ (200 <= status_code_of r < 300)%Z.

(** What the outer handler of [fetch_url] makes of an exception. *)
Definition fetch_error (e : exn) : exn :=
  HTTPException 400 (py "Error fetching URL: " ++ exn_str e).

(** The body of the fetcher once the response is in hand. *)
Definition decode_response (r : Response) : result str :=
  match decode_declared r with
  | Some text => Ok text
  | None =>
    try_except (decode (content r) (py "utf-8")) is_UnicodeDecodeError
      (fun _ => decode_detected (content r))
  end.

(** The header names no charset, or decoding with the one it names
    raises. *)
Definition header_charset_unusable (r : Response) : Prop :=
  declared_charset r = None
  \/ exists cs e, declared_charset r = Some cs
                  /\ decode (content r) cs = Raise e.

(** [p] occurs in [s]. *)
Definition occurs (p s : str) : Prop := exists a b, s = a ++ p ++ b.

(** [p] occurs in [s] up to the case of ASCII letters. *)
Definition occurs_nocase (p s : str) : Prop :=
  exists a m b, s = a ++ m ++ b /\ map ascii_lower m = p.

(** The lowered URL contains one of the platform's domains. *)
Definition url_matches_platform (url : str) : Prop :=
  exists d, In d platform_domains /\ occurs d (lower url).

(** The classes and ids of the document, joined and lowered, contain a
    forum keyword. *)
Definition forum_vocabulary (s : soup) : Prop :=
  exists k, In k forum_indicators /\ occurs k (classes_and_ids s).

(** A dict without the key ['html'], or no dict at all. *)
Definition lacks_html (data : pydata) : Prop :=
  match data with
  | Dict items => forall k v, In (k, v) items -> k <> py "html"
  | NotDict => True
  end.

End Statements.

Definition is_ascii (s : str) : Prop := Forall (fun c => (c < 128)%N) s.

(** The class tokens and the ids of a document, as the two loops of the
    classifier collect them. *)
Definition page_tokens (s : soup) : list str := concat (class_lists s) ++ ids s.

(** *** The document, read off the tree

    The statements about a parsed document do not go through the lists
    that the code collects: they follow the tree itself. *)

(** [e] is an element of the document: one of the list, or one of the
    contents of a tag of the document. *)
Inductive in_document : PageElement -> soup -> Prop :=
| in_document_top : forall e s, In e s -> in_document e s
| in_document_below : forall e name cl i cs s,
    in_document (Tag name cl i cs) s -> In e cs -> in_document e s.

(** [tok] is a class token or the id of a tag of the document. *)
Definition token_of_document (tok : str) (s : soup) : Prop :=
  exists name cl i cs,
    in_document (Tag name cl i cs) s
    /\ ((exists l, cl = Some l /\ In tok l) \/ i = Some tok).


(** What [g] finds at an element and, in document order, below it. *)
Fixpoint gather {A : Type} (g : PageElement -> list A) (e : PageElement)
  : list A :=
  g e ++ match e with
         | Tag _ _ _ cs => flat_map (gather g) cs
         | _ => []
         end.

Definition own_classes (e : PageElement) : list str :=
  match e with
  | Tag _ (Some l) _ _ => l
  | _ => []
  end.

Definition own_id (e : PageElement) : list str :=
  match e with
  | Tag _ _ (Some i) _ => [i]
  | _ => []
  end.


(** The class tokens of all elements, then the ids of all elements, each in
    document order, joined by spaces. *)
Definition document_vocabulary (s : soup) : str :=
  join (py " ")
    (flat_map (gather own_classes) s ++ flat_map (gather own_id) s).


(** The keywords of the forum rule, in English and in Chinese. *)
Definition forum_keywords : list str :=
  [py "forum"; py "topic"; py "thread"; py "post"; py "reply"; py "comment";
   py "discuss"; py "论坛"; py "帖子"; py "回复"; py "评论"; py "讨论"].

(** The labels of the classifier. *)
Definition labels : list str := [py "article"; py "forum"; py "weixin"].

(** No run of three [c] in [s], [n] of them standing just before it. *)
Fixpoint run_free (c : N) (n : nat) (s : str) : bool :=
  match s with
  | [] => true
  | x :: s' =>
    if (x =? c)%N then (n <? 2)%nat && run_free c (S n) s'
    else run_free c 0 s'
  end.


(** Induction over a document, through the contents of its tags. *)
Section PageElementInduction.
Variable P : PageElement -> Prop.
Hypothesis P_string : forall s, P (NavigableString s).
Hypothesis P_comment : forall s, P (Comment s).
Hypothesis P_tag : forall name cl i cs, Forall P cs -> P (Tag name cl i cs).

Fixpoint PageElement_nested_ind (e : PageElement) : P e :=
  match e with
  | NavigableString s => P_string s
  | Comment s => P_comment s
  | Tag name cl i cs =>
    P_tag name cl i
      ((fix all (l : list PageElement) : Forall P l :=
          match l with
          | [] => Forall_nil P
          | x :: l' => Forall_cons x (PageElement_nested_ind x) (all l')
          end) cs)
  end.
End PageElementInduction.

(** ** A small world to run the service in *)
Module Sample.

(** The body of a GB2312 page that holds one middle dot. *)
Definition gb_body : bytes := [161; 164]%N.

(** Two lines of one space each between two letters. *)
Definition spaced_lines : str := [97; NL; 32; NL; 32; NL; 98]%N.

(** A heading underlined with [=], as markdownify writes a first-level
    heading, a blank line and a paragraph. *)
Definition heading_text : str :=
  py "Title" ++ [NL] ++ py "=====" ++ [NL; NL] ++ py "Body".

Definition gb_url : str := py "http://gb.example/".
Definition plain_url : str := py "http://plain.example/".
Definition down_url : str := py "http://down.example/".
Definition missing_url : str := py "http://plain.example/missing".
Definition page_url : str := py "http://plain.example/garden".
Definition refused_url : str := py "http://plain.example/refused".

(** A page of one [div] with a class token that holds [post] inside a
    longer word, and an id. *)
Definition page_html : str :=
  py "<div class='Composting wide' id='main'> garden notes </div>".

Definition page : soup :=
  [Tag (py "div") (Some [py "Composting"; py "wide"]) (Some (py "main"))
     [NavigableString (py " garden notes ")]].

(** A marked section with an unknown keyword, which the parser refuses. *)
Definition refused_html : str := py "<![x[y]]>".

Definition gb_response : Response :=
  {| status_code_of := 200;
     content_type := Some (py "text/html; charset=gb2312");
     content := gb_body |}.

Definition plain_response : Response :=
  {| status_code_of := 200;
     content_type := Some (py "text/html");
     content := py "hello" |}.

Definition missing_response : Response :=
  {| status_code_of := 404; content_type := None; content := [] |}.

Definition page_response : Response :=
  {| status_code_of := 200;
     content_type := Some (py "text/html; charset=utf-8");
     content := page_html |}.

Definition refused_response : Response :=
  {| status_code_of := 200;
     content_type := Some (py "text/html");
     content := refused_html |}.

Definition get (url : str) : result Response :=
  if str_eqb url gb_url then Ok gb_response
  else if str_eqb url plain_url then Ok plain_response
  else if str_eqb url missing_url then Ok missing_response
  else if str_eqb url page_url then Ok page_response
  else if str_eqb url refused_url then Ok refused_response
  else Raise (RequestError (py "connection refused")).

(** The parser of this world knows four documents and refuses the rest. *)
Definition parse (html : str) : result soup :=
  if str_eqb html (py "hello") then Ok [NavigableString (py "hello")]
  else if str_eqb html [] then Ok []
  else if str_eqb html page_html then Ok page
  else if str_eqb html (py "<p> hi </p>") then
    Ok [Tag (py "p") None None [NavigableString (py " hi ")]]
  else Raise (LibraryError (py "ParserRejectedMarkup")).


(** ASCII bodies decode as themselves under every known codec; the middle
    dot of [gb_body] is U+30FB under gb2312 and U+00B7 under gb18030, as in
    CPython. *)
Definition codec (b : bytes) (name : str) : result str :=
  if negb (in_list name [py "utf-8"; py "gb2312"; py "gb18030"]) then
    Raise (LookupError name)
  else if forallb (fun c => (c <? 128)%N) b then Ok b
  else if str_eqb name (py "gb2312") && str_eqb b gb_body then Ok [12539%N]
  else if str_eqb name (py "gb18030") && str_eqb b gb_body then Ok [183%N]
  else Raise (UnicodeDecodeError name).

Definition world : Externals := {|
  lower_ucs4 := fun _ _ c => [c];
  client_get := get;
  decode := codec;
  chardet_detect := fun _ => None;
  status_error_text := fun _ => py "error response";
  BeautifulSoup := parse;
  md := fun html => Ok html;
  extractor_extract := fun _ _ _ => Ok NotDict
|}.

End Sample.

(** ** An extractor that returns markup, and a header with a quoted charset *)
Module SamplePage.

(** The sample world with an extractor that returns the page as it is. *)
Definition world : Externals := {|
  lower_ucs4 := fun _ _ c => [c];
  client_get := Sample.get;
  decode := Sample.codec;
  chardet_detect := fun _ => None;
  status_error_text := fun _ => py "error response";
  BeautifulSoup := Sample.parse;
  md := fun html => Ok html;
  extractor_extract := fun html _ _ => Ok (Dict [(py "html", PyStr html)])
|}.

Definition QUOTE : N := 34.

(** [Text/HTML; Charset="UTF-8"; boundary=x] *)
Definition quoted_header : str :=
  py "Text/HTML; Charset=" ++ [QUOTE] ++ py "UTF-8" ++ [QUOTE]
    ++ py "; boundary=x".

Definition quoted_response : Response :=
  {| status_code_of := 200;
     content_type := Some quoted_header;
     content := py "hello" |}.

(** A text that the clean-up has nothing to do on. *)
Definition clean_text : str :=
  py "# Title" ++ [NL; NL] ++ py "![logo](a.png) and a == b".

End SamplePage.

(** * Properties *)

(** ** Strings *)

Lemma str_eqb_eq (a b : str) : str_eqb a b = true <-> a = b.
Proof.
  unfold str_eqb. destruct (list_eq_dec N.eq_dec a b); split; congruence.
Qed.

Lemma str_eqb_neq (a b : str) : a <> b -> str_eqb a b = false.
Proof.
  intros H. unfold str_eqb. destruct (list_eq_dec N.eq_dec a b); congruence.
Qed.

Lemma str_eqb_refl (a : str) : str_eqb a a = true.
Proof. now apply str_eqb_eq. Qed.

Lemma startswith_app (p b : str) : startswith p (p ++ b) = true.
Proof.
  induction p as [|c p IH]; simpl; [reflexivity|].
  now rewrite N.eqb_refl, IH.
Qed.

Lemma startswith_inv (p s : str) :
  startswith p s = true -> exists b, s = p ++ b.
Proof.
  revert s. induction p as [|c p IH]; intros s H.
  - now exists s.
  - destruct s as [|x s]; simpl in H; [discriminate|].
    apply andb_prop in H. destruct H as [Hc Hp].
    apply N.eqb_eq in Hc. subst x.
    destruct (IH _ Hp) as [b ->]. now exists b.
Qed.

Lemma contains_unfold (p s : str) :
  contains p s
  = startswith p s || match s with [] => false | _ :: s' => contains p s' end.
Proof. destruct s; reflexivity. Qed.

Lemma contains_app (p a b : str) : contains p (a ++ p ++ b) = true.
Proof.
  induction a as [|c a IH]; simpl app.
  - rewrite contains_unfold, startswith_app. reflexivity.
  - rewrite contains_unfold, IH. apply orb_true_r.
Qed.

Lemma contains_occurs (p s : str) : contains p s = true <-> occurs p s.
Proof.
  split.
  - induction s as [|c s IH]; rewrite contains_unfold; intros H;
      apply orb_prop in H; destruct H as [H|H]; try discriminate.
    + destruct (startswith_inv _ _ H) as [b Hb]. now exists [], b.
    + destruct (startswith_inv _ _ H) as [b Hb]. now exists [], b.
    + destruct (IH H) as (a & b & ->). now exists (c :: a), b.
  - intros (a & b & ->). apply contains_app.
Qed.

Lemma contains_false_occurs (p s : str) :
  contains p s = false <-> ~ occurs p s.
Proof.
  rewrite <- contains_occurs. destruct (contains p s); split; congruence.
Qed.

Lemma existsb_contains (l : list str) (s : str) :
  existsb (fun p => contains p s) l = true
  <-> exists p, In p l /\ occurs p s.
Proof.
  rewrite existsb_exists. split; intros (p & Hin & H); exists p; split; auto;
    now apply contains_occurs.
Qed.

Lemma ascii_lower_ascii (c : N) : (c < 128)%N -> (ascii_lower c < 128)%N.
Proof.
  unfold ascii_lower. intros H.
  destruct ((65 <=? c) && (c <=? 90))%N eqn:Hc; [|exact H].
  apply andb_prop in Hc. destruct Hc as [_ Hc]. apply N.leb_le in Hc. lia.
Qed.

Lemma ascii_lower_inv (c : N) : (ascii_lower c < 128)%N -> (c < 128)%N.
Proof.
  unfold ascii_lower. destruct ((65 <=? c) && (c <=? 90))%N; lia.
Qed.

Lemma map_ascii_lower_is_ascii (m : str) :
  is_ascii (map ascii_lower m) -> is_ascii m.
Proof.
  unfold is_ascii. rewrite Forall_map. apply Forall_impl.
  intros c. apply ascii_lower_inv.
Qed.

Section LowerFacts.
Context {E : Externals}.

Lemma lower_from_app (whole : str) (a b : str) (i : nat) :
  lower_from whole i (a ++ b)
  = lower_from whole i a ++ lower_from whole (i + length a) b.
Proof.
  revert i. induction a as [|c a IH]; intros i; simpl.
  - now rewrite Nat.add_0_r.
  - replace (i + S (length a)) with (S i + length a) by lia.
    now rewrite IH, app_assoc.
Qed.

Lemma lower_from_ascii (whole : str) (m : str) (i : nat) :
  is_ascii m -> lower_from whole i m = map ascii_lower m.
Proof.
  revert i. induction m as [|c m IH]; intros i Hm; simpl; [reflexivity|].
  inversion Hm as [|? ? Hc Hm']; subst.
  apply N.ltb_lt in Hc. rewrite Hc. simpl. now rewrite IH.
Qed.

Lemma lower_ascii (s : str) : is_ascii s -> lower s = map ascii_lower s.
Proof. apply lower_from_ascii. Qed.

(** An occurrence up to case of an ASCII pattern survives lowering. *)
Lemma lower_occurs_nocase (p s : str) :
  is_ascii p -> occurs_nocase p s -> occurs p (lower s).
Proof.
  intros Hp (a & m & b & -> & Hm).
  assert (Hascii : is_ascii m)
    by (apply map_ascii_lower_is_ascii; now rewrite Hm).
  unfold lower. rewrite lower_from_app, lower_from_app.
  rewrite (lower_from_ascii _ _ Hascii), Hm.
  eexists _, _. reflexivity.
Qed.

(** On an ASCII string, an occurrence in the lowered string comes from an
    occurrence up to case. *)
Lemma occurs_lower_ascii (p s : str) :
  is_ascii s -> occurs p (lower s) -> occurs_nocase p s.
Proof.
  intros Hs (a & b & H). rewrite (lower_ascii Hs) in H.
  apply map_eq_app in H. destruct H as (a' & r & -> & Ha & H).
  apply map_eq_app in H. destruct H as (m & b' & -> & Hm & Hb).
  now exists a', m, b'.
Qed.

End LowerFacts.

Lemma is_ascii_forallb (s : str) :
  forallb (fun c => (c <? 128)%N) s = true -> is_ascii s.
Proof.
  intros H. apply Forall_forall. intros c Hc.
  rewrite forallb_forall in H. now apply N.ltb_lt, H.
Qed.

Lemma occurs_nocase_refl_ascii (p s : str) :
  map ascii_lower p = p -> occurs p s -> occurs_nocase p s.
Proof. intros Hp (a & b & ->). now exists a, p, b. Qed.

Lemma occurs_nocase_suffix (p q s : str) :
  occurs_nocase (p ++ q) s -> occurs_nocase q s.
Proof.
  intros (a & m & b & -> & Hm).
  apply map_eq_app in Hm. destruct Hm as (m1 & m2 & -> & H1 & H2).
  exists (a ++ m1), m2, b. split; [|exact H2].
  now rewrite <- !app_assoc.
Qed.

(** ** The classifier *)

Section Classifier.
Context {E : Externals}.

Lemma platform_test_true (url : str) :
  existsb (fun domain => contains domain (lower url)) platform_domains = true
  <-> url_matches_platform url.
Proof. apply existsb_contains. Qed.

Lemma forum_test_true (s : soup) :
  existsb (fun indicator => contains indicator (classes_and_ids s))
    forum_indicators = true
  <-> forum_vocabulary s.
Proof. apply existsb_contains. Qed.

Lemma detect_weixin (html url : str) :
  url_matches_platform url -> detect_html_type html url = Ok (py "weixin").
Proof.
  intros H. apply platform_test_true in H.
  unfold detect_html_type. now rewrite H.
Qed.

Lemma detect_weixin_inv (html url : str) :
  detect_html_type html url = Ok (py "weixin") -> url_matches_platform url.
Proof.
  unfold detect_html_type, bind. intros H. apply platform_test_true.
  destruct (existsb _ platform_domains); [reflexivity|].
  destruct (BeautifulSoup html); [|discriminate].
  destruct (existsb _ forum_indicators); injection H as H;
    vm_compute in H; discriminate.
Qed.

(** Past the platform rule, the label is decided by the parsed document. *)
Lemma detect_parsed (html url : str) (s : soup) :
  ~ url_matches_platform url -> BeautifulSoup html = Ok s ->
  detect_html_type html url
  = if existsb (fun indicator => contains indicator (classes_and_ids s))
         forum_indicators
    then Ok (py "forum") else Ok (py "article").
Proof.
  intros Hn Hs. unfold detect_html_type, bind.
  destruct (existsb _ platform_domains) eqn:Hd;
    [now apply platform_test_true in Hd|].
  now rewrite Hs.
Qed.

Lemma detect_refused (html url : str) (e : exn) :
  ~ url_matches_platform url -> BeautifulSoup html = Raise e ->
  detect_html_type html url = Raise e.
Proof.
  intros Hn Hs. unfold detect_html_type, bind.
  destruct (existsb _ platform_domains) eqn:Hd;
    [now apply platform_test_true in Hd|].
  now rewrite Hs.
Qed.

(** What the classifier returns is a label, and what it raises is what the
    parser raised for a URL that is not the platform's. *)
Lemma detect_cases (html url : str) :
  (url_matches_platform url
   /\ detect_html_type html url = Ok (py "weixin"))
  \/ (~ url_matches_platform url
      /\ ((exists s, BeautifulSoup html = Ok s
                     /\ forum_vocabulary s
                     /\ detect_html_type html url = Ok (py "forum"))
          \/ (exists s, BeautifulSoup html = Ok s
                        /\ ~ forum_vocabulary s
                        /\ detect_html_type html url = Ok (py "article"))
          \/ (exists e, BeautifulSoup html = Raise e
                        /\ detect_html_type html url = Raise e))).
Proof.
  destruct (existsb (fun domain => contains domain (lower url))
              platform_domains) eqn:Hd.
  - apply platform_test_true in Hd. left. split; [exact Hd|].
    now apply detect_weixin.
  - assert (Hn : ~ url_matches_platform url).
    { intros H. apply platform_test_true in H. congruence. }
    right. split; [exact Hn|].
    destruct (BeautifulSoup html) as [s|e] eqn:Hs.
    + rewrite (detect_parsed _ Hn Hs).
      destruct (existsb _ forum_indicators) eqn:Hk.
      * left. exists s. apply forum_test_true in Hk. now repeat split.
      * right. left. exists s. split; [reflexivity|]. split; [|reflexivity].
        intros H. apply forum_test_true in H. congruence.
    + right. right. exists e. split; [reflexivity|].
      now apply detect_refused.
Qed.

Lemma detect_label (html url l : str) :
  detect_html_type html url = Ok l -> In l labels.
Proof.
  intros H. destruct (detect_cases html url)
    as [[_ Hw]|[_ [(s & _ & _ & Hf)|[(s & _ & _ & Ha)|(e & _ & He)]]]];
    rewrite H in *.
  - injection Hw as ->. right. right. now left.
  - injection Hf as ->. right. now left.
  - injection Ha as ->. now left.
  - discriminate.
Qed.

Lemma nocase_matches_platform (d url : str) :
  In d platform_domains -> occurs_nocase d url -> url_matches_platform url.
Proof.
  intros Hd H. exists d. split; [exact Hd|].
  apply lower_occurs_nocase; [|exact H].
  apply is_ascii_forallb.
  destruct Hd as [<-|[<-|[]]]; vm_compute; reflexivity.
Qed.

(** C9: the platform test is a substring match, blind to the case of ASCII
    letters, over the whole URL: an occurrence of [mp.weixin.qq.com] or of
    [weixin.qq.com] anywhere in the URL, in any case, gives ["weixin"]
    whatever the host and the page are; and for an ASCII URL the label
    ["weixin"] is given only when [weixin.qq.com] occurs in it up to
    case. *)
Theorem platform_test_is_substring_match (html url : str) :
  (occurs_nocase (py "mp.weixin.qq.com") url
   \/ occurs_nocase (py "weixin.qq.com") url ->
   detect_html_type html url = Ok (py "weixin"))
  /\ (is_ascii url -> detect_html_type html url = Ok (py "weixin") ->
      occurs_nocase (py "weixin.qq.com") url).
Proof.
  split.
  - intros [H|H]; apply detect_weixin.
    + apply nocase_matches_platform with (d := py "mp.weixin.qq.com");
        [now left|exact H].
    + apply nocase_matches_platform with (d := py "weixin.qq.com");
        [right; now left|exact H].
  - intros Hascii H. apply detect_weixin_inv in H.
    destruct H as (d & Hd & Hocc).
    apply (occurs_lower_ascii Hascii) in Hocc.
    destruct Hd as [<-|[<-|[]]]; [|exact Hocc].
    apply occurs_nocase_suffix with (p := py "mp."). exact Hocc.
Qed.

End Classifier.

(** ** The fetcher *)

Lemma in_list_In (x : str) (l : list str) : in_list x l = true <-> In x l.
Proof.
  unfold in_list. rewrite existsb_exists. split.
  - intros (y & Hy & H). apply str_eqb_eq in H. now subst.
  - intros H. exists x. split; [exact H|apply str_eqb_refl].
Qed.

Lemma raise_for_status_ok {E : Externals} (r : Response) :
  (200 <= status_code_of r < 300)%Z -> raise_for_status r = Ok tt.
Proof.
  intros [H1 H2]. unfold raise_for_status.
  apply Z.leb_le in H1. apply Z.ltb_lt in H2. now rewrite H1, H2.
Qed.

Lemma raise_for_status_raise {E : Externals} (r : Response) :
  ~ (200 <= status_code_of r < 300)%Z ->
  raise_for_status r = Raise (HTTPStatusError (status_error_text r)).
Proof.
  intros H. unfold raise_for_status.
  destruct (200 <=? status_code_of r)%Z eqn:H1;
    destruct (status_code_of r <? 300)%Z eqn:H2; try reflexivity.
  apply Z.leb_le in H1. apply Z.ltb_lt in H2. elim H. lia.
Qed.

Section Fetcher.
Context {E : Externals}.

Lemma fetch_url_request_raises (url : str) (e : exn) :
  client_get url = Raise e -> fetch_url url = Raise (fetch_error e).
Proof. intros H. unfold fetch_url. now rewrite H. Qed.

Lemma fetch_url_bad_status (url : str) (r : Response) :
  client_get url = Ok r -> ~ (200 <= status_code_of r < 300)%Z ->
  fetch_url url
  = Raise (fetch_error (HTTPStatusError (status_error_text r))).
Proof.
  intros H Hs. unfold fetch_url. rewrite H. simpl.
  now rewrite (raise_for_status_raise _ Hs).
Qed.

Lemma fetch_url_fetched (url : str) (r : Response) :
  fetched url r ->
  fetch_url url
  = match decode_response r with
    | Ok text => Ok text
    | Raise e => Raise (fetch_error e)
    end.
Proof.
  intros [H Hs]. unfold fetch_url. rewrite H. simpl.
  rewrite (raise_for_status_ok _ Hs). simpl.
  fold (decode_response r). now destruct (decode_response r).
Qed.

Lemma fetch_url_failure (url : str) :
  fetch_failure url -> exists e, fetch_url url = Raise (fetch_error e).
Proof.
  intros [[e H]|(r & H & Hs)].
  - exists e. now apply fetch_url_request_raises.
  - eexists. exact (fetch_url_bad_status _ H Hs).
Qed.

Lemma fetch_url_raises_400 (url : str) (e : exn) :
  fetch_url url = Raise e -> exists d, e = HTTPException 400 d.
Proof.
  unfold fetch_url, try_except, any_exception.
  destruct (bind _ _); intros H; [discriminate|].
  injection H as <-. eexists. reflexivity.
Qed.

Lemma decode_response_declared (r : Response) (cs text : str) :
  declared_charset r = Some cs -> decode (content r) cs = Ok text ->
  decode_response r = Ok text.
Proof.
  intros Hc Hd. unfold decode_response, decode_declared. now rewrite Hc, Hd.
Qed.

Lemma decode_declared_none (r : Response) :
  header_charset_unusable r -> decode_declared r = None.
Proof.
  unfold decode_declared. intros [H|(cs & e & H & Hd)]; rewrite H;
    [reflexivity|]. now rewrite Hd.
Qed.

Lemma decode_response_utf8 (r : Response) (text : str) :
  header_charset_unusable r -> decode (content r) (py "utf-8") = Ok text ->
  decode_response r = Ok text.
Proof.
  intros Hh Hd. unfold decode_response.
  now rewrite (decode_declared_none Hh), Hd.
Qed.

Lemma decode_response_detected (r : Response) (m : str) :
  header_charset_unusable r ->
  decode (content r) (py "utf-8") = Raise (UnicodeDecodeError m) ->
  decode_response r = decode (content r) (detected_encoding (content r)).
Proof.
  intros Hh Hd. unfold decode_response.
  now rewrite (decode_declared_none Hh), Hd.
Qed.

Lemma lower_nonempty_truthy (e : str) (l : list str) :
  In (lower e) l -> ~ In [] l -> truthy e = true.
Proof. destruct e; [intros H Hn; elim Hn; exact H|reflexivity]. Qed.

Lemma detected_encoding_gb (content : bytes) (enc : str) :
  chardet_detect content = Some enc ->
  In (lower enc) [py "gb2312"; py "gbk"] ->
  detected_encoding content = py "gb18030".
Proof.
  intros Hd Hin. unfold detected_encoding. rewrite Hd.
  assert (Ht : truthy enc = true).
  { apply (lower_nonempty_truthy _ _ Hin).
    intros [H|[H|[]]]; vm_compute in H; discriminate. }
  apply in_list_In in Hin. now rewrite Ht, Hin.
Qed.

Lemma detected_encoding_other (content : bytes) (enc : str) :
  chardet_detect content = Some enc -> truthy enc = true ->
  ~ In (lower enc) [py "gb2312"; py "gbk"] ->
  detected_encoding content = enc.
Proof.
  intros Hd Ht Hin. unfold detected_encoding. rewrite Hd, Ht.
  destruct (in_list _ _) eqn:Hl; [now apply in_list_In in Hl|].
  simpl. now rewrite Ht.
Qed.

Lemma detected_encoding_none (content : bytes) :
  chardet_detect content = None -> detected_encoding content = py "utf-8".
Proof. intros Hd. unfold detected_encoding. now rewrite Hd. Qed.

(** A usual header of a GB2312 page, in any case, declares [gb2312]. *)
Lemma declared_charset_gb2312 (r : Response) (v : str) :
  content_type r = Some v ->
  map ascii_lower v = py "text/html; charset=gb2312" ->
  declared_charset r = Some (py "gb2312").
Proof.
  intros Hc Hv. unfold declared_charset. rewrite Hc.
  assert (Ha : is_ascii v).
  { apply map_ascii_lower_is_ascii. rewrite Hv.
    apply is_ascii_forallb. vm_compute. reflexivity. }
  rewrite (lower_ascii Ha), Hv. vm_compute. reflexivity.
Qed.

End Fetcher.

Section FetcherClaims.
Context {E : Externals}.

(** C2, as the code has it: when the header declares [charset=gb2312] the
    fetcher decodes the body with the declared codec, GB2312, and returns
    that text when the decoding succeeds.  GB18030 comes in only through
    detection: once the declared codec has failed and UTF-8 has raised
    [UnicodeDecodeError], a detection of GB2312 or GBK makes the fetcher
    decode with GB18030. *)
Theorem declared_gb2312_is_decoded_as_declared (url : str) (r : Response) :
  fetched url r ->
  declared_charset r = Some (py "gb2312") ->
  (forall text, decode (content r) (py "gb2312") = Ok text ->
                fetch_url url = Ok text)
  /\ (forall e m enc text,
         decode (content r) (py "gb2312") = Raise e ->
         decode (content r) (py "utf-8") = Raise (UnicodeDecodeError m) ->
         chardet_detect (content r) = Some enc ->
         In (lower enc) [py "gb2312"; py "gbk"] ->
         decode (content r) (py "gb18030") = Ok text ->
         fetch_url url = Ok text).
Proof.
  intros Hf Hc. split.
  - intros text Hd. rewrite (fetch_url_fetched Hf).
    now rewrite (decode_response_declared _ Hc Hd).
  - intros e m enc text Hd Hu Hdet Hin Hg.
    rewrite (fetch_url_fetched Hf).
    assert (Hh : header_charset_unusable r) by (right; eauto).
    rewrite (decode_response_detected Hh Hu).
    now rewrite (detected_encoding_gb _ Hdet Hin), Hg.
Qed.

End FetcherClaims.

(** ** The endpoint *)

Section Endpoint.
Context {E : Externals}.

Lemma extract_content_fetch_raises (url : str) (f : option Format) (e : exn) :
  fetch_url url = Raise e ->
  extract_content url f = Raise (HTTPException 500 (exn_str e)).
Proof. intros H. unfold extract_content. now rewrite H. Qed.

Lemma extract_content_raises_500 (url : str) (f : option Format) (e : exn) :
  extract_content url f = Raise e -> exists d, e = HTTPException 500 d.
Proof.
  unfold extract_content, try_except, any_exception.
  destruct (bind _ _); intros H; [discriminate|].
  injection H as <-. eexists. reflexivity.
Qed.

(** C1, on the code: a failed fetch makes [fetch_url] raise an
    [HTTPException] with status 400, but the endpoint's own
    [except Exception] catches that exception too and raises a new one with
    status 500, whose detail is the text of the first.  Whatever fails, the
    fetch, the extraction or the conversion, the endpoint answers 500. *)
Theorem fetch_failure_is_answered_500 (url : str) (f : option Format) :
  (fetch_failure url ->
   exists e,
     fetch_url url = Raise (fetch_error e)
     /\ extract_content url f
        = Raise (HTTPException 500 (exn_str (fetch_error e)))
     /\ http_status (extract_content url f) = 500%Z)
  /\ (forall e, extract_content url f = Raise e ->
                http_status (extract_content url f) = 500%Z).
Proof.
  split.
  - intros H. destruct (fetch_url_failure H) as [e He]. exists e.
    split; [exact He|].
    rewrite (extract_content_fetch_raises _ f He). now split.
  - intros e H. rewrite H.
    destruct (extract_content_raises_500 _ _ H) as [d ->]. reflexivity.
Qed.

Lemma convert_content_other (html : pyobj) (fmt : str) :
  fmt <> py "html" -> fmt <> py "markdown" -> fmt <> py "text" ->
  convert_content html fmt = Ok (py_str html).
Proof.
  intros H1 H2 H3. unfold convert_content.
  now rewrite (str_eqb_neq H1), (str_eqb_neq H2), (str_eqb_neq H3).
Qed.

(** C6: a format other than ["html"], ["markdown"] and ["text"] makes
    [convert_content] return the markup as it is; and the endpoint's
    [output_format] may be left out, which is the same as asking for
    ["text"], the format the response then names. *)
Theorem unknown_format_returns_markup (html fmt : str) :
  fmt <> py "html" -> fmt <> py "markdown" -> fmt <> py "text" ->
  convert_content (PyStr html) fmt = Ok html
  /\ (forall url, extract_content url None
                  = extract_content url (Some text_format))
  /\ (forall url p, extract_content url None = Ok p ->
                    format_of p = py "text").
Proof.
  intros H1 H2 H3. split; [|split].
  - exact (convert_content_other (PyStr html) H1 H2 H3).
  - reflexivity.
  - intros url p. unfold extract_content, try_except, bind.
    destruct (fetch_url url) as [h|]; cbv beta iota; [|discriminate].
    destruct (detect_html_type h url) as [t|]; cbv beta iota; [|discriminate].
    destruct (extractor_extract _ _ _); cbv beta iota; [|discriminate].
    destruct (convert_content _ _); cbv beta iota; [|discriminate].
    intros H. injection H as <-. reflexivity.
Qed.

Lemma dict_get_missing (items : list (str * pyobj)) (key : str) (d : pyobj) :
  (forall k v, In (k, v) items -> k <> key) -> dict_get items key d = d.
Proof.
  induction items as [|[k v] items IH]; intros H; simpl; [reflexivity|].
  rewrite (str_eqb_neq (H k v (or_introl eq_refl))).
  apply IH. intros k' v' Hin. apply (H k' v'). now right.
Qed.

Lemma extract_html_content_lacking (data : pydata) :
  lacks_html data -> extract_html_content data = PyStr [].
Proof.
  destruct data as [items|]; simpl; [|reflexivity].
  apply dict_get_missing.
Qed.

(** C8: when the extractor returns something that is no dict, or a dict
    without the key ['html'], the extracted markup is the empty string, and
    the endpoint answers with [success] true as soon as the conversion of
    the empty markup returns: its content is that conversion, which is
    empty for ["html"], and for the other two formats when markdownify and
    the parser give nothing for the empty markup.  The extractor is called
    with the label [t] that the classifier has returned for the fetched
    page. *)
Theorem missing_html_gives_empty_content
    (url html t c : str) (f : option Format) (data : pydata) :
  fetch_url url = Ok html ->
  detect_html_type html url = Ok t ->
  extractor_extract html url t = Ok data ->
  lacks_html data ->
  convert_content (PyStr []) (format_str (or_default f)) = Ok c ->
  extract_html_content data = PyStr []
  /\ extract_content url f
     = Ok {| url_of := url;
             content_of := c;
             format_of := format_str (or_default f);
             type_of := t;
             success := true |}
  /\ (or_default f = html_format -> c = [])
  /\ (or_default f = markdown_format -> md [] = Ok [] -> c = [])
  /\ (or_default f = text_format -> BeautifulSoup [] = Ok [] -> c = []).
Proof.
  intros Hf Ht He Hl Hc.
  pose proof (extract_html_content_lacking _ Hl) as Hx.
  split; [exact Hx|]. split.
  - unfold extract_content. rewrite Hf. simpl. rewrite Ht. simpl.
    rewrite He. simpl. rewrite Hx, Hc. reflexivity.
  - split; [|split]; intros Hfmt; rewrite Hfmt in Hc.
    + vm_compute in Hc. now injection Hc.
    + intros Hmd. unfold convert_content in Hc. simpl in Hc.
      rewrite Hmd in Hc. vm_compute in Hc. now injection Hc.
    + intros Hbs. unfold convert_content in Hc. simpl in Hc.
      rewrite Hbs in Hc. vm_compute in Hc. now injection Hc.
Qed.

End Endpoint.

(** ** The text format *)

Lemma flat_map_flat_map {A B C : Type} (f : B -> list C) (g : A -> list B)
    (l : list A) :
  flat_map f (flat_map g l) = flat_map (fun x => flat_map f (g x)) l.
Proof.
  induction l as [|x l IH]; simpl; [reflexivity|].
  now rewrite flat_map_app, IH.
Qed.


Lemma flat_map_ext_Forall {A B : Type} (f g : A -> list B) (l : list A) :
  Forall (fun x => f x = g x) l -> flat_map f l = flat_map g l.
Proof.
  induction 1 as [|x l Hx _ IH]; simpl; [reflexivity|]. now rewrite Hx, IH.
Qed.



Lemma truthy_nonempty (s : str) : truthy s = true <-> s <> [].
Proof. destruct s; simpl; split; congruence. Qed.


(** ** The markdown clean-up *)

Lemma run_free_mono (c : N) (m n : nat) (s : str) :
  m <= n -> run_free c n s = true -> run_free c m s = true.
Proof.
  revert m n. induction s as [|x s IH]; intros m n Hmn; [reflexivity|].
  cbn [run_free]. destruct (x =? c)%N; [|exact (fun H => H)].
  intros H. apply andb_prop in H. destruct H as [Hn H].
  apply Nat.ltb_lt in Hn. apply andb_true_intro. split.
  - apply Nat.ltb_lt. lia.
  - apply (IH (S m) (S n)); [lia|exact H].
Qed.

Lemma run_free_weaken (c : N) (n : nat) (s : str) :
  run_free c n s = true -> run_free c 0 s = true.
Proof. apply run_free_mono. lia. Qed.

Lemma run_free_three (c : N) (n : nat) (b : str) :
  run_free c n (c :: c :: c :: b) = false.
Proof.
  cbn [run_free]. rewrite !N.eqb_refl. destruct n as [|[|n]]; reflexivity.
Qed.

Lemma run_free_repeat (c : N) (n j : nat) (t : str) :
  n + j <= 2 -> run_free c n (repeat c j ++ t) = run_free c (n + j) t.
Proof.
  revert n. induction j as [|j IH]; intros n H; simpl.
  - now rewrite Nat.add_0_r.
  - rewrite N.eqb_refl.
    assert (Hn : (n <? 2) = true) by (apply Nat.ltb_lt; lia).
    rewrite Hn, IH by lia. simpl. f_equal. lia.
Qed.

Lemma run_free_prefix (c : N) (n : nat) (a b : str) :
  run_free c n (a ++ b) = true -> run_free c n a = true.
Proof.
  revert n. induction a as [|x a IH]; intros n; simpl; [reflexivity|].
  destruct (x =? c)%N; [|apply IH].
  intros H. apply andb_prop in H. destruct H as [Hn H].
  rewrite Hn. simpl. now apply IH.
Qed.

Lemma run_free_suffix (c : N) (n : nat) (a b : str) :
  run_free c n (a ++ b) = true -> run_free c 0 b = true.
Proof.
  revert n. induction a as [|x a IH]; intros n; simpl.
  - apply run_free_weaken.
  - destruct (x =? c)%N; [|apply IH].
    intros H. apply andb_prop in H. destruct H as [_ H]. now apply IH in H.
Qed.

(** A run-free string holds no three [c] in a row. *)
Lemma run_free_contains (c : N) (n : nat) (s : str) :
  run_free c n s = true -> contains [c; c; c] s = false.
Proof.
  revert n. induction s as [|x s IH]; intros n H; [reflexivity|].
  rewrite contains_unfold.
  assert (Hs : contains [c; c; c] s = false).
  { cbn [run_free] in H. destruct (x =? c)%N; [|now apply IH in H].
    apply andb_prop in H. destruct H as [_ H]. now apply IH in H. }
  rewrite Hs, orb_false_r.
  destruct (startswith [c; c; c] (x :: s)) eqn:Hp; [|reflexivity].
  apply startswith_inv in Hp. destruct Hp as [b Hb]. simpl in Hb.
  rewrite Hb, run_free_three in H. discriminate.
Qed.

Lemma flush_run_short (c : N) (j n : nat) :
  j <= 2 ->
  exists k, k <= 2 /\ flush_run c 3 (repeat c j) n = repeat c k.
Proof.
  intros Hj. unfold flush_run. destruct (3 <=? n) eqn:Hn.
  - now exists j.
  - exists n. apply Nat.leb_gt in Hn. split; [lia|reflexivity].
Qed.

(** After the substitution of runs of three or more [c] by at most two,
    no run of three is left. *)
Lemma sub_run_from_run_free (c : N) (j n : nat) (s : str) :
  j <= 2 -> run_free c 0 (sub_run_from c 3 (repeat c j) n s) = true.
Proof.
  intros Hj. revert n. induction s as [|x s IH]; intros n; simpl.
  - destruct (flush_run_short c n Hj) as (k & Hk & ->).
    rewrite <- (app_nil_r (repeat c k)), run_free_repeat by lia.
    reflexivity.
  - destruct (x =? c)%N eqn:Hx; [apply IH|].
    destruct (flush_run_short c n Hj) as (k & Hk & ->).
    rewrite run_free_repeat by lia. simpl. rewrite Hx. apply IH.
Qed.

Lemma sub_run_no_run (c : N) (j : nat) (s : str) :
  j <= 2 -> contains [c; c; c] (sub_run c 3 (repeat c j) s) = false.
Proof.
  intros Hj. apply run_free_contains with (n := 0).
  now apply sub_run_from_run_free.
Qed.

(** A text without a run of three [c] is left as it is. *)
Lemma sub_run_from_id (c : N) (r : str) (n : nat) (s : str) :
  n <= 2 -> run_free c n s = true ->
  sub_run_from c 3 r n s = repeat c n ++ s.
Proof.
  revert n. induction s as [|x s IH]; intros n Hn H; simpl.
  - unfold flush_run. destruct (3 <=? n) eqn:H3.
    + apply Nat.leb_le in H3. lia.
    + now rewrite app_nil_r.
  - cbn [run_free] in H. destruct (x =? c)%N eqn:Hx.
    + apply N.eqb_eq in Hx. subst x.
      apply andb_prop in H. destruct H as [H2 H].
      apply Nat.ltb_lt in H2. rewrite IH by (try lia; exact H).
      change (repeat c (S n) ++ s) with ((c :: repeat c n) ++ s).
      now rewrite repeat_cons, <- app_assoc.
    + rewrite (IH 0) by (try lia; exact H).
      unfold flush_run. destruct (3 <=? n) eqn:H3; [|reflexivity].
      apply Nat.leb_le in H3. lia.
Qed.

(** What follows a code point other than [c] is rewritten on its own. *)
Lemma sub_run_from_cut (c : N) (r : str) (n : nat) (a : str) (x : N) (t : str) :
  (x =? c)%N = false ->
  sub_run_from c 3 r n (a ++ x :: t)
  = sub_run_from c 3 r n (a ++ [x]) ++ sub_run_from c 3 r 0 t.
Proof.
  intros Hx. revert n. induction a as [|y a IH]; intros n; simpl.
  - rewrite Hx. simpl. now rewrite <- app_assoc.
  - destruct (y =? c)%N; [apply IH|].
    now rewrite IH, <- app_assoc.
Qed.

Lemma sub_run_from_repeat (c : N) (r : str) (n k : nat) (t : str) :
  sub_run_from c 3 r n (repeat c k ++ t) = sub_run_from c 3 r (n + k) t.
Proof.
  revert n. induction k as [|k IH]; intros n; simpl.
  - now rewrite Nat.add_0_r.
  - rewrite N.eqb_refl, IH. f_equal. lia.
Qed.

(** A run of three or more [c] between two texts, the first not ending in
    [c] and the second not starting with it, is deleted, wherever it is. *)
Lemma sub_run_deletes (c : N) (a b : str) (k : nat) :
  3 <= k ->
  (forall a', a <> a' ++ [c]) -> (forall b', b <> c :: b') ->
  sub_run c 3 [] (a ++ repeat c k ++ b) = sub_run c 3 [] a ++ sub_run c 3 [] b.
Proof.
  intros Hk Ha Hb. unfold sub_run.
  assert (Hrun : forall n, n <= 2 ->
            sub_run_from c 3 [] n (repeat c k ++ b)
            = sub_run_from c 3 [] 0 b).
  { intros n Hn. rewrite sub_run_from_repeat.
    assert (H3 : (3 <=? n + k) = true) by (apply Nat.leb_le; lia).
    destruct b as [|y b]; simpl.
    - unfold flush_run. now rewrite H3.
    - destruct (y =? c)%N eqn:Hy.
      + apply N.eqb_eq in Hy. subst y. now elim (Hb b).
      + unfold flush_run. now rewrite H3. }
  destruct a as [|y a] using rev_ind; [apply Hrun; lia|].
  clear IHa. destruct (y =? c)%N eqn:Hy.
  - apply N.eqb_eq in Hy. subst y. now elim (Ha a).
  - rewrite <- app_assoc. simpl.
    rewrite sub_run_from_cut by exact Hy. now rewrite Hrun by lia.
Qed.

Lemma lstrip_suffix (s : str) : exists a, s = a ++ lstrip s.
Proof.
  induction s as [|c s [a IH]]; [now exists []|]. simpl.
  destruct (isspace c); [|now exists []].
  exists (c :: a). simpl. now rewrite <- IH.
Qed.

Lemma rstrip_prefix (s : str) : exists b, s = rstrip s ++ b.
Proof.
  unfold rstrip. destruct (lstrip_suffix (rev s)) as [a Ha].
  exists (rev a). rewrite <- rev_app_distr, <- Ha. now rewrite rev_involutive.
Qed.

Lemma run_free_strip (c : N) (n : nat) (s : str) :
  run_free c n s = true -> run_free c 0 (strip s) = true.
Proof.
  intros H. unfold strip.
  destruct (lstrip_suffix s) as [a Ha]. rewrite Ha in H.
  apply run_free_suffix in H.
  destruct (rstrip_prefix (lstrip s)) as [b Hb]. rewrite Hb in H.
  now apply run_free_prefix in H.
Qed.

(** One step of the scan for image links. *)
Lemma relabel_images_from_scan (c : N) (s' : str) :
  relabel_images_from false (c :: s')
  = if startswith (py "![](") (c :: s') && closes_on_line (skipn 3 s')
    then py "![图片](" ++ relabel_images_from true (skipn 3 s')
    else c :: relabel_images_from false s'.
Proof.
  change (py "![](") with [33; 91; 93; 40]%N.
  destruct s' as [|c2 [|c3 [|c4 rest]]];
    cbn [relabel_images_from startswith skipn closes_on_line];
    try reflexivity;
    destruct (33 =? c)%N; cbn [andb]; try reflexivity;
    destruct (91 =? c2)%N; cbn [andb]; try reflexivity;
    destruct (93 =? c3)%N; reflexivity.
Qed.

Lemma relabel_images_from_copy (c : N) (s' : str) :
  relabel_images_from true (c :: s')
  = c :: relabel_images_from (negb (c =? RPAREN)%N) s'.
Proof. reflexivity. Qed.

Lemma relabel_images_from_run_free (k : nat) :
  forall (s : str) (copying : bool) (n : nat),
    length s <= k ->
    run_free EQUALS n s = true ->
    run_free EQUALS n (relabel_images_from copying s) = true.
Proof.
  induction k as [|k IH]; intros s copying n Hlen H.
  - destruct s; [reflexivity|simpl in Hlen; lia].
  - destruct s as [|c s']; [reflexivity|]. simpl in Hlen.
    assert (Hstep : forall b,
              run_free EQUALS n (c :: relabel_images_from b s') = true).
    { intros b. cbn [run_free] in *. destruct (c =? EQUALS)%N.
      - apply andb_prop in H. destruct H as [Hn H]. rewrite Hn.
        apply IH; [lia|exact H].
      - apply IH; [lia|exact H]. }
    destruct copying; [rewrite relabel_images_from_copy; apply Hstep|].
    rewrite relabel_images_from_scan.
    destruct (startswith _ _ && closes_on_line _) eqn:Hm; [|apply Hstep].
    apply andb_prop in Hm. destruct Hm as [Hp _].
    apply startswith_inv in Hp. destruct Hp as [b Hb].
    change (py "![](") with [33; 91; 93; 40]%N in Hb.
    injection Hb as -> ->.
    change (py "![图片](") with [33; 91; 22270; 29255; 93; 40]%N.
    cbn in H |- *. apply IH; [simpl in Hlen; lia|exact H].
Qed.

Lemma relabel_images_run_free (s : str) :
  run_free EQUALS 0 s = true -> run_free EQUALS 0 (relabel_images s) = true.
Proof. apply relabel_images_from_run_free with (k := length s). lia. Qed.

(** A text without [![](] is left as it is. *)
Lemma relabel_images_id (s : str) :
  contains (py "![](") s = false -> relabel_images s = s.
Proof.
  unfold relabel_images. induction s as [|c s IH]; [reflexivity|].
  rewrite contains_unfold. intros H. apply orb_false_elim in H.
  destruct H as [Hp Hs]. rewrite relabel_images_from_scan, Hp. simpl.
  now rewrite IH.
Qed.

Lemma closes_on_line_group (x rest : str) :
  Forall (fun c => c <> RPAREN /\ c <> NL) x ->
  closes_on_line (x ++ RPAREN :: rest) = true.
Proof.
  induction 1 as [|c x [Hc Hn] _ IH]; simpl; [reflexivity|].
  apply N.eqb_neq in Hc, Hn. now rewrite Hc, Hn.
Qed.

Lemma relabel_images_from_group (x rest : str) :
  Forall (fun c => c <> RPAREN /\ c <> NL) x ->
  relabel_images_from true (x ++ RPAREN :: rest)
  = x ++ RPAREN :: relabel_images_from false rest.
Proof.
  induction 1 as [|c x [Hc Hn] _ IH]; [reflexivity|].
  simpl app. rewrite relabel_images_from_copy.
  apply N.eqb_neq in Hc. rewrite Hc. simpl negb. now rewrite IH.
Qed.

(** An image link without a label gets the label of the pattern. *)
Lemma relabel_images_empty_label (x rest : str) :
  Forall (fun c => c <> RPAREN /\ c <> NL) x ->
  relabel_images (py "![](" ++ x ++ RPAREN :: rest)
  = py "![图片](" ++ x ++ RPAREN :: relabel_images rest.
Proof.
  intros Hx. unfold relabel_images.
  change (py "![](") with [33; 91; 93; 40]%N. simpl app.
  rewrite relabel_images_from_scan.
  change (py "![](") with [33; 91; 93; 40]%N.
  simpl skipn. simpl startswith.
  rewrite (closes_on_line_group _ Hx). simpl andb. cbv iota.
  now rewrite (relabel_images_from_group _ Hx).
Qed.

Lemma clean_markdown_run_free (text : str) :
  run_free EQUALS 0 (clean_markdown text) = true.
Proof.
  unfold clean_markdown.
  apply run_free_strip with (n := 0), relabel_images_run_free.
  apply (sub_run_from_run_free EQUALS 0 (j := 0)). lia.
Qed.

(** C3, on the code: the first step of the clean-up leaves no three
    newlines in a row, but the steps after it bring them back.  The lines
    are stripped afterwards, so lines that held only whitespace become
    empty ([Sample.spaced_lines]); and the runs of [=] are deleted
    afterwards, so the underline of a heading becomes an empty line
    ([Sample.heading_text]).  In both results three newlines stand in a
    row. *)
Theorem blank_lines_survive_clean_up :
  (forall text, contains [NL; NL; NL] (sub_run NL 3 [NL; NL] text) = false)
  /\ clean_markdown Sample.spaced_lines = [97; NL; NL; NL; 98]%N
  /\ contains [NL; NL; NL] (clean_markdown Sample.spaced_lines) = true
  /\ clean_markdown Sample.heading_text
     = py "Title" ++ [NL; NL; NL] ++ py "Body"
  /\ contains [NL; NL; NL] (clean_markdown Sample.heading_text) = true.
Proof.
  split; [|repeat split; reflexivity].
  intros text. apply (sub_run_no_run NL (j := 2)). lia.
Qed.

(** ** The claims at work in the sample world *)

(** C1 at a URL that cannot be reached: the fetcher raises 400 and the
    endpoint answers 500. *)
Lemma fetch_failure_is_answered_500_down :
  fetch_failure (E := Sample.world) Sample.down_url
  /\ http_status (extract_content (E := Sample.world) Sample.down_url None)
     = 500%Z.
Proof.
  assert (H : fetch_failure (E := Sample.world) Sample.down_url).
  { left. eexists. vm_compute. reflexivity. }
  split; [exact H|].
  destruct (proj1 (fetch_failure_is_answered_500 (E := Sample.world)
                     Sample.down_url None) H) as (e & _ & _ & Hs).
  exact Hs.
Defined.

(** C2 as stated fails: the header declares [charset=gb2312], and the text
    returned is the GB2312 reading of the body, which is not its GB18030
    reading. *)
Lemma declared_gb2312_is_not_read_as_gb18030 :
  fetched (E := Sample.world) Sample.gb_url Sample.gb_response
  /\ declared_charset (E := Sample.world) Sample.gb_response
     = Some (py "gb2312")
  /\ fetch_url (E := Sample.world) Sample.gb_url
     = decode (Externals := Sample.world) Sample.gb_body (py "gb2312")
  /\ fetch_url (E := Sample.world) Sample.gb_url
     <> decode (Externals := Sample.world) Sample.gb_body (py "gb18030").
Proof.
  split; [split; [reflexivity|cbn; lia]|].
  split; [reflexivity|]. split; [reflexivity|].
  vm_compute. discriminate.
Qed.

Lemma declared_gb2312_is_decoded_as_declared_gb :
  fetched (E := Sample.world) Sample.gb_url Sample.gb_response
  /\ declared_charset (E := Sample.world) Sample.gb_response
     = Some (py "gb2312")
  /\ fetch_url (E := Sample.world) Sample.gb_url = Ok [12539%N].
Proof.
  assert (Hf : fetched (E := Sample.world) Sample.gb_url Sample.gb_response).
  { split; [reflexivity|]. cbn. lia. }
  assert (Hc : declared_charset (E := Sample.world) Sample.gb_response
               = Some (py "gb2312")) by reflexivity.
  split; [exact Hf|]. split; [exact Hc|].
  apply (proj1 (declared_gb2312_is_decoded_as_declared
                  (E := Sample.world) Hf Hc)).
  reflexivity.
Defined.

(** C6 at the format ["pdf"]. *)
Lemma unknown_format_returns_markup_pdf :
  py "pdf" <> py "html" /\ py "pdf" <> py "markdown" /\ py "pdf" <> py "text"
  /\ convert_content (E := Sample.world) (PyStr (py "<p>hi</p>")) (py "pdf")
     = Ok (py "<p>hi</p>").
Proof.
  assert (H1 : py "pdf" <> py "html") by (vm_compute; discriminate).
  assert (H2 : py "pdf" <> py "markdown") by (vm_compute; discriminate).
  assert (H3 : py "pdf" <> py "text") by (vm_compute; discriminate).
  repeat (split; [assumption|]).
  exact (proj1 (unknown_format_returns_markup (E := Sample.world)
                  (py "<p>hi</p>") H1 H2 H3)).
Defined.

(** C8 in the sample world, whose extractor returns no dict. *)
Lemma missing_html_gives_empty_content_plain :
  extract_content (E := Sample.world) Sample.plain_url (Some html_format)
  = Ok {| url_of := Sample.plain_url;
          content_of := [];
          format_of := py "html";
          type_of := py "article";
          success := true |}.
Proof.
  exact (proj1 (proj2 (@missing_html_gives_empty_content
                         Sample.world Sample.plain_url (py "hello")
                         (py "article") [] (Some html_format) NotDict
                         eq_refl eq_refl eq_refl I eq_refl))).
Defined.

(** C9 at a URL on another host that names the domain in its query, in
    capitals. *)
Lemma platform_test_is_substring_match_query :
  occurs_nocase (py "weixin.qq.com") (py "http://example.com/?ref=WeiXin.QQ.com")
  /\ detect_html_type (E := Sample.world) (py "<p>hi</p>")
       (py "http://example.com/?ref=WeiXin.QQ.com") = Ok (py "weixin").
Proof.
  assert (H : occurs_nocase (py "weixin.qq.com")
                (py "http://example.com/?ref=WeiXin.QQ.com")).
  { exists (py "http://example.com/?ref="), (py "WeiXin.QQ.com"), [].
    split; reflexivity. }
  split; [exact H|].
  apply (proj1 (platform_test_is_substring_match (E := Sample.world)
                  (py "<p>hi</p>")
                  (py "http://example.com/?ref=WeiXin.QQ.com"))).
  now right.
Defined.

(** * Further properties of the code *)

(** ** [strip] *)

Lemma lstrip_keeps (c : N) (t : str) :
  isspace c = false -> lstrip (c :: t) = c :: t.
Proof. intros H. simpl. now rewrite H. Qed.

Lemma lstrip_head (s : str) (c : N) (t : str) :
  lstrip s = c :: t -> isspace c = false.
Proof.
  induction s as [|x s IH]; simpl; [discriminate|].
  destruct (isspace x) eqn:Hx; [exact IH|].
  intros H. injection H as <- _. exact Hx.
Qed.

Lemma lstrip_idem (s : str) : lstrip (lstrip s) = lstrip s.
Proof.
  destruct (lstrip s) as [|c t] eqn:H; [reflexivity|].
  apply lstrip_keeps. exact (lstrip_head _ H).
Qed.

Lemma lstrip_snoc (a : str) (c : N) :
  isspace c = false -> lstrip (a ++ [c]) = lstrip a ++ [c].
Proof.
  intros Hc. induction a as [|x a IH]; simpl; [now rewrite Hc|].
  now destruct (isspace x).
Qed.

Lemma rstrip_keeps (c : N) (t : str) :
  isspace c = false -> rstrip (c :: t) = c :: rstrip t.
Proof.
  intros Hc. unfold rstrip. simpl rev.
  rewrite lstrip_snoc by exact Hc. now rewrite rev_app_distr.
Qed.

Lemma rstrip_idem (s : str) : rstrip (rstrip s) = rstrip s.
Proof. unfold rstrip. now rewrite rev_involutive, lstrip_idem. Qed.

Lemma strip_idem (s : str) : strip (strip s) = strip s.
Proof.
  unfold strip. destruct (lstrip s) as [|c t] eqn:H; [reflexivity|].
  pose proof (lstrip_head _ H) as Hc.
  rewrite rstrip_keeps by exact Hc. rewrite lstrip_keeps by exact Hc.
  rewrite rstrip_keeps by exact Hc. now rewrite rstrip_idem.
Qed.

Lemma lstrip_strip (s : str) : lstrip (strip s) = strip s.
Proof.
  unfold strip. destruct (lstrip s) as [|c t] eqn:H; [reflexivity|].
  pose proof (lstrip_head _ H) as Hc.
  rewrite rstrip_keeps by exact Hc. now apply lstrip_keeps.
Qed.

Lemma strip_fixed (s : str) : strip s = s <-> lstrip s = s /\ rstrip s = s.
Proof.
  split.
  - intros H. assert (Hl : lstrip s = s).
    { rewrite <- H. apply lstrip_strip. }
    split; [exact Hl|]. unfold strip in H. now rewrite Hl in H.
  - intros [Hl Hr]. unfold strip. now rewrite Hl.
Qed.

(** A stripped string neither starts nor ends with whitespace. *)
Lemma strip_ends (s : str) :
  (forall c t, strip s = c :: t -> isspace c = false)
  /\ (forall t c, strip s = t ++ [c] -> isspace c = false).
Proof.
  pose proof (strip_idem s) as H. apply strip_fixed in H.
  destruct H as [Hl Hr]. split.
  - intros c t Hs. rewrite Hs in Hl. exact (lstrip_head _ Hl).
  - intros t c Hs. rewrite Hs in Hr. unfold rstrip in Hr.
    rewrite rev_app_distr in Hr. simpl in Hr.
    destruct (isspace c) eqn:Hc; [|reflexivity].
    destruct (lstrip_suffix (rev t)) as [a Ha].
    apply (f_equal (@length N)) in Hr, Ha.
    rewrite length_rev, length_app in Hr. simpl in Hr.
    rewrite length_app, length_rev in Ha. lia.
Qed.

Lemma lstrip_fixed_head (s : str) :
  lstrip s = s <-> (forall c t, s = c :: t -> isspace c = false).
Proof.
  split.
  - intros H c t Hs. rewrite Hs in H. exact (lstrip_head _ H).
  - intros H. destruct s as [|c t]; [reflexivity|].
    apply lstrip_keeps. now apply (H c t).
Qed.

Lemma rstrip_fixed_last (s : str) :
  rstrip s = s <-> (forall t c, s = t ++ [c] -> isspace c = false).
Proof.
  unfold rstrip. split.
  - intros H t c Hs. apply (f_equal (@rev N)) in H.
    rewrite rev_involutive in H. apply lstrip_fixed_head with (c := c) (t := rev t) in H;
      [exact H|]. rewrite Hs, rev_app_distr. reflexivity.
  - intros H. rewrite <- (rev_involutive s) at 2. f_equal.
    apply lstrip_fixed_head. intros c t Hs. apply (H (rev t) c).
    rewrite <- (rev_involutive s), Hs. reflexivity.
Qed.

(** ** [join] *)

Lemma join_cons (sep x : str) (l : list str) :
  l <> [] -> join sep (x :: l) = x ++ sep ++ join sep l.
Proof. destruct l; [congruence|reflexivity]. Qed.

Lemma join_starts (sep p : str) (l : list str) :
  exists v, join sep (p :: l) = p ++ v.
Proof.
  destruct l as [|y l]; [exists []; simpl; now rewrite app_nil_r|].
  now exists (sep ++ join sep (y :: l)).
Qed.

Lemma join_ends (sep p : str) (l : list str) :
  exists u, join sep (l ++ [p]) = u ++ p.
Proof.
  induction l as [|x l [u IH]]; [now exists []|].
  simpl app. rewrite join_cons by (destruct l; discriminate).
  rewrite IH. exists (x ++ sep ++ u). now rewrite <- !app_assoc.
Qed.

Lemma join_nil_inv (sep : str) (l : list str) :
  (forall p, In p l -> p <> []) -> join sep l = [] -> l = [].
Proof.
  destruct l as [|p l]; [reflexivity|]. intros Hp H.
  destruct (join_starts sep p l) as [v Hv]. rewrite Hv in H.
  apply app_eq_nil in H. destruct H as [H _].
  now elim (Hp p (or_introl eq_refl)).
Qed.

(** Joining stripped, non-empty pieces gives a stripped string. *)
Lemma strip_join (sep : str) (l : list str) :
  (forall p, In p l -> p <> [] /\ strip p = p) ->
  strip (join sep l) = join sep l.
Proof.
  intros Hl. apply strip_fixed. split.
  - apply lstrip_fixed_head. intros c t Hj.
    destruct l as [|p l]; [discriminate|].
    destruct (Hl p (or_introl eq_refl)) as [Hne Hp].
    apply strip_fixed in Hp. destruct Hp as [Hp _].
    destruct (join_starts sep p l) as [v Hv]. rewrite Hv in Hj.
    destruct p as [|c0 p0]; [congruence|].
    injection Hj as -> _. exact (lstrip_head _ Hp).
  - apply rstrip_fixed_last. intros t c Hj.
    destruct l as [|p l _] using rev_ind; [now destruct t|].
    destruct (Hl p) as [Hne Hp]; [apply in_or_app; right; now left|].
    apply strip_fixed in Hp. destruct Hp as [_ Hp].
    destruct (join_ends sep p l) as [u Hu]. rewrite Hu in Hj.
    destruct p as [|c0 p0 _] using rev_ind; [congruence|].
    rewrite app_assoc in Hj. apply app_inj_tail in Hj.
    destruct Hj as [_ ->].
    exact (proj1 (rstrip_fixed_last _) Hp p0 c eq_refl).
Qed.

Lemma text_pieces_stripped (s : soup) (p : str) :
  In p (text_pieces s) -> p <> [] /\ strip p = p.
Proof.
  unfold text_pieces. rewrite filter_In, in_map_iff.
  intros [(t & <- & _) Hp]. split; [now apply truthy_nonempty|].
  apply strip_idem.
Qed.

(** ** Stripped results *)

(** The result of the clean-up is stripped: stripping it again changes
    nothing, and it neither starts nor ends with a whitespace code point. *)
Theorem clean_markdown_is_stripped (text : str) :
  strip (clean_markdown text) = clean_markdown text
  /\ (forall c t, clean_markdown text = c :: t -> isspace c = false)
  /\ (forall t c, clean_markdown text = t ++ [c] -> isspace c = false).
Proof.
  unfold clean_markdown. split; [apply strip_idem|apply strip_ends].
Qed.

(** The text format gives a stripped string, whatever the document; it is
    empty exactly when every text node of the parsed document is empty
    once stripped. *)
Theorem text_output_is_stripped {E : Externals} (html : pyobj) (c : str) :
  convert_content html (py "text") = Ok c ->
  strip c = c
  /\ exists s,
       BeautifulSoup (py_str html) = Ok s
       /\ (c = [] <-> forall t, In t (text_nodes s) -> strip t = []).
Proof.
  intros H.
  change (bind (BeautifulSoup (py_str html))
            (fun soup => Ok (get_text [NL] soup)) = Ok c) in H.
  destruct (BeautifulSoup (py_str html)) as [s|] eqn:Hs; [|discriminate].
  simpl in H. injection H as <-. unfold get_text. split.
  - apply strip_join. intros p. apply text_pieces_stripped.
  - exists s. split; [reflexivity|]. split.
    + intros Hj t Ht. apply join_nil_inv in Hj.
      * destruct (strip t) as [|x u] eqn:Hst; [reflexivity|].
        assert (Hin : In (strip t) (text_pieces s)).
        { unfold text_pieces. apply filter_In. split.
          - now apply in_map.
          - now rewrite Hst. }
        rewrite Hj in Hin. destruct Hin.
      * intros p Hp. now apply text_pieces_stripped in Hp.
    + intros Hall. unfold text_pieces.
      induction (text_nodes s) as [|t l IH]; [reflexivity|].
      simpl. rewrite (Hall t (or_introl eq_refl)). simpl.
      apply IH. intros t' Ht'. apply Hall. now right.
Qed.

(** ** The two substitutions of runs *)

Lemma contains_suffix (p a b : str) :
  contains p (a ++ b) = false -> contains p b = false.
Proof.
  rewrite !contains_false_occurs. intros H (u & v & ->). apply H.
  exists (a ++ u), v. now rewrite <- app_assoc.
Qed.

Lemma contains_prefix (p a b : str) :
  contains p (a ++ b) = false -> contains p a = false.
Proof.
  rewrite !contains_false_occurs. intros H (u & v & ->). apply H.
  exists u, (v ++ b). now rewrite <- !app_assoc.
Qed.

(** A string without three [c] in a row is run-free, up to two [c]
    standing before it. *)
Lemma no_run_run_free (c : N) (n : nat) (s : str) :
  n <= 2 -> contains [c; c; c] (repeat c n ++ s) = false ->
  run_free c n s = true.
Proof.
  revert n. induction s as [|x s IH]; intros n Hn H; [reflexivity|].
  cbn [run_free]. destruct (x =? c)%N eqn:Hx.
  - apply N.eqb_eq in Hx. subst x.
    assert (Hlt : n < 2).
    { destruct (Nat.eq_dec n 2) as [->|]; [|lia].
      simpl in H. rewrite !N.eqb_refl in H. discriminate. }
    apply andb_true_intro. split; [now apply Nat.ltb_lt|].
    apply IH; [lia|].
    change (repeat c (S n) ++ s) with ((c :: repeat c n) ++ s).
    now rewrite repeat_cons, <- app_assoc.
  - apply (IH 0); [lia|]. simpl.
    apply contains_suffix with (a := repeat c n ++ [x]).
    now rewrite <- app_assoc.
Qed.

Lemma sub_run_id (c : N) (r s : str) :
  contains [c; c; c] s = false -> sub_run c 3 r s = s.
Proof.
  intros H. unfold sub_run.
  rewrite sub_run_from_id; [reflexivity|lia|].
  apply no_run_run_free; [lia|exact H].
Qed.

(** A run of three or more [c] between two texts, the first not ending in
    [c] and the second not starting with it, becomes the replacement. *)
Lemma sub_run_replaces (c : N) (r a b : str) (k : nat) :
  3 <= k ->
  (forall a', a <> a' ++ [c]) -> (forall b', b <> c :: b') ->
  sub_run c 3 r (a ++ repeat c k ++ b)
  = sub_run c 3 r a ++ r ++ sub_run c 3 r b.
Proof.
  intros Hk Ha Hb. unfold sub_run.
  assert (H3 : (3 <=? k) = true) by now apply Nat.leb_le.
  assert (Hrun : sub_run_from c 3 r 0 (repeat c k ++ b)
                 = r ++ sub_run_from c 3 r 0 b).
  { rewrite sub_run_from_repeat. simpl plus.
    destruct b as [|y b]; simpl.
    - unfold flush_run. rewrite H3. simpl. now rewrite app_nil_r.
    - destruct (y =? c)%N eqn:Hy.
      + apply N.eqb_eq in Hy. subst y. now elim (Hb b).
      + unfold flush_run. rewrite H3. reflexivity. }
  destruct a as [|y a _] using rev_ind; [exact Hrun|].
  destruct (y =? c)%N eqn:Hy.
  - apply N.eqb_eq in Hy. subst y. now elim (Ha a).
  - rewrite <- app_assoc. simpl app.
    rewrite sub_run_from_cut by exact Hy. now rewrite Hrun.
Qed.

(** The two substitutions touch nothing but runs: a text without three
    newlines in a row passes the collapse unchanged, a text without [===]
    passes the deletion unchanged; and a run of three or more newlines
    between two texts becomes exactly two newlines. *)
Theorem run_substitutions_touch_runs_only :
  (forall text, contains [NL; NL; NL] text = false ->
                sub_run NL 3 [NL; NL] text = text)
  /\ (forall text, contains (py "===") text = false ->
                   sub_run EQUALS 3 [] text = text)
  /\ (forall a b k,
         3 <= k ->
         (forall a', a <> a' ++ [NL]) -> (forall b', b <> NL :: b') ->
         sub_run NL 3 [NL; NL] (a ++ repeat NL k ++ b)
         = sub_run NL 3 [NL; NL] a ++ [NL; NL] ++ sub_run NL 3 [NL; NL] b).
Proof.
  split; [|split].
  - intros text. apply sub_run_id.
  - intros text. apply (sub_run_id EQUALS).
  - intros a b k. apply sub_run_replaces.
Qed.

(** ** [split] and [join] *)

Lemma split_from_skips (sep a rest cur : str) :
  split_from sep (length a) cur (a ++ rest) = split_from sep 0 cur rest.
Proof.
  induction a as [|x a IH]; [reflexivity|]. simpl. exact IH.
Qed.

Lemma split_from_nonempty (sep : str) (k : nat) (cur s : str) :
  split_from sep k cur s <> [].
Proof.
  revert k cur. induction s as [|c s IH]; intros k cur; simpl; [discriminate|].
  destruct k; [|apply IH].
  destruct (startswith sep (c :: s)); [discriminate|apply IH].
Qed.

(** Joining the pieces with the separator gives the string back. *)
Lemma join_split_from (sep : str) (n : nat) :
  sep <> [] ->
  forall (s cur : str), length s <= n ->
    join sep (split_from sep 0 cur s) = rev cur ++ s.
Proof.
  intros Hsep. induction n as [|n IH]; intros s cur Hlen.
  - destruct s; [simpl; now rewrite app_nil_r|simpl in Hlen; lia].
  - destruct s as [|c s']; [simpl; now rewrite app_nil_r|].
    cbn [split_from]. destruct (startswith sep (c :: s')) eqn:Hp.
    + apply startswith_inv in Hp. destruct Hp as [rest Hr].
      destruct sep as [|c0 sep']; [congruence|].
      simpl in Hr. injection Hr as -> ->.
      replace (length (c0 :: sep') - 1) with (length sep') by (simpl; lia).
      rewrite split_from_skips.
      rewrite join_cons by apply split_from_nonempty.
      rewrite IH.
      * reflexivity.
      * simpl in Hlen. rewrite length_app in Hlen. lia.
    + rewrite IH by (simpl in Hlen; lia).
      simpl. now rewrite <- app_assoc.
Qed.

Lemma join_split (sep s : str) : sep <> [] -> join sep (split sep s) = s.
Proof.
  intros Hsep. unfold split.
  now rewrite (join_split_from Hsep (n := length s)).
Qed.

Lemma map_fixed {A : Type} (f : A -> A) (l : list A) :
  (forall x, In x l -> f x = x) -> map f l = l.
Proof.
  induction l as [|x l IH]; intros H; simpl; [reflexivity|].
  rewrite (H x (or_introl eq_refl)), IH; [reflexivity|].
  intros y Hy. apply H. now right.
Qed.

(** A text that is clean already is returned as it is: no three newlines
    in a row, every line stripped, no [===], no [![](], and no whitespace
    at either end of the whole. *)
Theorem clean_markdown_keeps_clean_text (text : str) :
  contains [NL; NL; NL] text = false ->
  (forall line, In line (split [NL] text) -> strip line = line) ->
  contains (py "===") text = false ->
  contains (py "![](") text = false ->
  strip text = text ->
  clean_markdown text = text.
Proof.
  intros Hnl Hlines Heq Himg Hstrip. unfold clean_markdown.
  rewrite (@sub_run_id NL [NL; NL] text Hnl).
  rewrite map_fixed by exact Hlines.
  rewrite join_split by discriminate.
  rewrite (@sub_run_id EQUALS [] text Heq).
  rewrite relabel_images_id by exact Himg.
  exact Hstrip.
Qed.

(** ** What the fetcher returns *)

Section FetcherFacts.
Context {E : Externals}.

Lemma decode_declared_some (r : Response) (text : str) :
  decode_declared r = Some text ->
  exists cs, declared_charset r = Some cs /\ decode (content r) cs = Ok text.
Proof.
  unfold decode_declared. destruct (declared_charset r) as [cs|]; [|discriminate].
  destruct (decode (content r) cs) as [t|e] eqn:Hd; [|discriminate].
  intros H. injection H as <-. now exists cs.
Qed.

Lemma decode_declared_none_inv (r : Response) :
  decode_declared r = None -> header_charset_unusable r.
Proof.
  unfold decode_declared, header_charset_unusable.
  destruct (declared_charset r) as [cs|]; [|now left].
  destruct (decode (content r) cs) as [t|e] eqn:Hd; [discriminate|].
  intros _. right. now exists cs, e.
Qed.

(** A text that the fetcher returns is a decoding of the body of a 2xx
    response, made at one of the three stages: with the charset of the
    header; or, that one being unusable, with UTF-8; or, UTF-8 having
    raised [UnicodeDecodeError], with the detected encoding. *)
Theorem fetch_url_returns_a_decoding (url text : str) :
  fetch_url url = Ok text ->
  exists r,
    fetched url r
    /\ ((exists cs, declared_charset r = Some cs
                    /\ decode (content r) cs = Ok text)
        \/ (header_charset_unusable r
            /\ decode (content r) (py "utf-8") = Ok text)
        \/ (header_charset_unusable r
            /\ (exists m, decode (content r) (py "utf-8")
                          = Raise (UnicodeDecodeError m))
            /\ decode (content r) (detected_encoding (content r)) = Ok text)).
Proof.
  intros H. destruct (client_get url) as [r|e] eqn:Hg.
  2: { rewrite (fetch_url_request_raises _ Hg) in H. discriminate. }
  assert (Hdec : (200 <= status_code_of r < 300)%Z
                 \/ ~ (200 <= status_code_of r < 300)%Z) by lia.
  destruct Hdec as [Hs|Hs].
  2: { rewrite (fetch_url_bad_status _ Hg Hs) in H. discriminate. }
  assert (Hf : fetched url r) by now split.
  exists r. split; [exact Hf|].
  rewrite (fetch_url_fetched Hf) in H. unfold decode_response in H.
  destruct (decode_declared r) as [t|] eqn:Hd.
  - injection H as <-. left. now apply decode_declared_some.
  - apply decode_declared_none_inv in Hd. right.
    destruct (decode (content r) (py "utf-8")) as [t|e] eqn:Hu;
      cbn [try_except] in H.
    + injection H as <-. now left.
    + right. destruct e; cbn [is_UnicodeDecodeError] in H; try discriminate.
      unfold decode_detected in H.
      destruct (decode (content r) (detected_encoding (content r)))
        as [t|e'] eqn:Hx; [|discriminate].
      injection H as <-. split; [exact Hd|]. split; [now exists msg|].
      reflexivity.
Qed.

(** The codec of the last stage is never the empty name, and never GB2312
    or GBK in any case of letters. *)
Theorem detected_encoding_is_never_gb2312 (b : bytes) :
  truthy (detected_encoding b) = true
  /\ ~ In (lower (detected_encoding b)) [py "gb2312"; py "gbk"].
Proof.
  assert (Hutf : ~ In (lower (py "utf-8")) [py "gb2312"; py "gbk"]).
  { rewrite lower_ascii by (apply is_ascii_forallb; reflexivity).
    intros [H|[H|[]]]; vm_compute in H; discriminate. }
  assert (Hgb : ~ In (lower (py "gb18030")) [py "gb2312"; py "gbk"]).
  { rewrite lower_ascii by (apply is_ascii_forallb; reflexivity).
    intros [H|[H|[]]]; vm_compute in H; discriminate. }
  unfold detected_encoding.
  destruct (chardet_detect b) as [e|]; [|split; [reflexivity|exact Hutf]].
  destruct (truthy e) eqn:Ht; cbn [andb].
  - destruct (in_list (lower e) [py "gb2312"; py "gbk"]) eqn:Hl.
    + split; [reflexivity|exact Hgb].
    + rewrite Ht. split; [exact Ht|].
      intros Hin. apply in_list_In in Hin. congruence.
  - rewrite Ht. split; [reflexivity|exact Hutf].
Qed.

End FetcherFacts.

(** ** What the endpoint returns *)

Section EndpointFacts.
Context {E : Externals}.

(** A payload comes from a fetch, a classification, an extraction and a
    conversion that all returned: it echoes the URL and names the format
    asked for, its type is the label of the fetched page, one of the three,
    its content is the conversion of the extracted markup, and [success] is
    true. *)
Theorem extract_content_payload (url : str) (f : option Format) (p : Payload) :
  extract_content url f = Ok p ->
  exists html data,
    fetch_url url = Ok html
    /\ detect_html_type html url = Ok (type_of p)
    /\ extractor_extract html url (type_of p) = Ok data
    /\ convert_content (extract_html_content data) (format_str (or_default f))
       = Ok (content_of p)
    /\ url_of p = url
    /\ format_of p = format_str (or_default f)
    /\ In (type_of p) [py "article"; py "forum"; py "weixin"]
    /\ success p = true.
Proof.
  unfold extract_content, try_except, bind.
  destruct (fetch_url url) as [html|] eqn:Hf; cbv beta iota; [|discriminate].
  destruct (detect_html_type html url) as [t|] eqn:Ht; cbv beta iota;
    [|discriminate].
  destruct (extractor_extract _ _ _) as [data|] eqn:He; cbv beta iota;
    [|discriminate].
  destruct (convert_content _ _) as [c|] eqn:Hc; cbv beta iota;
    [|discriminate].
  intros H. injection H as <-. exists html, data. cbn.
  repeat (split; [reflexivity || assumption|]).
  split; [exact (detect_label _ _ Ht)|reflexivity].
Qed.

Lemma dict_get_present (items : list (str * pyobj)) (key : str) (d v : pyobj) :
  In (key, v) items -> In (key, dict_get items key d) items.
Proof.
  induction items as [|[k w] items IH]; [intros []|]. simpl.
  destruct (str_eqb k key) eqn:Hk.
  - apply str_eqb_eq in Hk. subst k. intros _. now left.
  - intros [H|H]; [|right; now apply IH].
    injection H as -> _. rewrite str_eqb_refl in Hk. discriminate.
Qed.

(** The markup taken from the extractor's result is the empty string or a
    value that the dict holds under ['html']; and it is such a value, of
    whatever type, as soon as the dict has the key. *)
Theorem extract_html_content_is_stored (data : pydata) :
  (extract_html_content data = PyStr []
   \/ exists items, data = Dict items
                    /\ In (py "html", extract_html_content data) items)
  /\ (forall items v,
         data = Dict items -> In (py "html", v) items ->
         In (py "html", extract_html_content data) items).
Proof.
  split.
  - destruct data as [items|]; [|now left]. simpl.
    assert (H : dict_get items (py "html") (PyStr []) = PyStr []
                \/ In (py "html", dict_get items (py "html") (PyStr [])) items).
    { induction items as [|[k v] items IH]; [now left|]. simpl.
      destruct (str_eqb k (py "html")) eqn:Hk.
      - apply str_eqb_eq in Hk. subst k. right. now left.
      - destruct IH as [IH|IH]; [now left|right; now right]. }
    destruct H as [H|H]; [now left|right; now exists items].
  - intros items v -> Hin. simpl. now apply dict_get_present with (v := v).
Qed.

End EndpointFacts.

(** ** Forum keywords and single tokens *)

Lemma occurs_in_join (sep x : str) (l : list str) :
  In x l -> occurs x (join sep l).
Proof.
  induction l as [|y l IH]; [intros []|]. intros [->|Hin].
  - destruct (join_starts sep x l) as [v Hv]. exists [], v. exact Hv.
  - destruct (IH Hin) as (a & b & Hj).
    rewrite join_cons by (destruct l; [destruct Hin|discriminate]).
    rewrite Hj. exists (y ++ sep ++ a), b. now rewrite <- !app_assoc.
Qed.

Lemma occurs_nocase_inside (k tok s : str) :
  occurs_nocase k tok -> occurs tok s -> occurs_nocase k s.
Proof.
  intros (a & m & b & -> & Hm) (u & v & ->).
  exists (u ++ a), m, (b ++ v). split; [|exact Hm].
  now rewrite <- !app_assoc.
Qed.

(** An occurrence, in a join over a one-point separator, of a string that
    does not hold the separator lies inside one piece. *)
Lemma join_occurrence_in_piece (sp : N) (m : str) (l : list str) :
  ~ In sp m -> m <> [] ->
  forall a b, join [sp] l = a ++ m ++ b ->
  exists tok, In tok l /\ occurs m tok.
Proof.
  intros Hsp Hm. induction l as [|x l IH]; intros a b Hj.
  - simpl in Hj. symmetry in Hj. apply app_eq_nil in Hj.
    destruct Hj as [_ Hj]. apply app_eq_nil in Hj. now destruct Hj.
  - destruct l as [|y l].
    + exists x. split; [now left|]. now exists a, b.
    + rewrite join_cons in Hj by discriminate. simpl app in Hj.
      apply app_eq_app in Hj. destruct Hj as [l2 [[Hx Hr]|[Ha Hr]]].
      * apply app_eq_app in Hr. destruct Hr as [l3 [[Hm' Hr]|[Hl2 Hr]]].
        -- destruct l3 as [|z l3].
           ++ rewrite app_nil_r in Hm'. subst l2.
              exists x. split; [now left|]. exists a, []. now rewrite app_nil_r.
           ++ simpl in Hr. injection Hr as <- _.
              elim Hsp. rewrite Hm'. apply in_or_app. right. now left.
        -- exists x. split; [now left|]. exists a, l3. now rewrite Hx, Hl2.
      * destruct l2 as [|z l2].
        -- simpl in Hr. destruct m as [|c m]; [congruence|].
           injection Hr as <- _. elim Hsp. now left.
        -- simpl in Hr. injection Hr as _ Hr.
           destruct (IH _ _ Hr) as (tok & Hin & Ho).
           exists tok. split; [now right|exact Ho].
Qed.

Lemma forum_indicators_no_space (k : str) :
  In k forum_indicators -> k <> [] /\ ~ In 32%N k.
Proof.
  assert (H : forallb (fun k => truthy k && negb (existsb (N.eqb 32) k))
                forum_indicators = true) by reflexivity.
  rewrite forallb_forall in H. intros Hk. specialize (H k Hk).
  apply andb_prop in H. destruct H as [Ht Hs]. split.
  - now apply truthy_nonempty.
  - intros Hin. apply negb_true_iff in Hs.
    assert (Hex : existsb (N.eqb 32) k = true).
    { apply existsb_exists. exists 32%N. split; [exact Hin|reflexivity]. }
    congruence.
Qed.

Section ForumFacts.
Context {E : Externals}.

Lemma detect_forum (html url : str) (s : soup) :
  ~ url_matches_platform url -> BeautifulSoup html = Ok s ->
  forum_vocabulary s ->
  detect_html_type html url = Ok (py "forum").
Proof.
  intros Hn Hs Hf. rewrite (detect_parsed _ Hn Hs).
  apply forum_test_true in Hf. now rewrite Hf.
Qed.

Lemma detect_article (html url : str) (s : soup) :
  ~ url_matches_platform url -> BeautifulSoup html = Ok s ->
  ~ forum_vocabulary s ->
  detect_html_type html url = Ok (py "article").
Proof.
  intros Hn Hs Hf. rewrite (detect_parsed _ Hn Hs).
  destruct (existsb _ forum_indicators) eqn:Hk; [|reflexivity].
  now apply forum_test_true in Hk.
Qed.

Lemma detect_forum_inv (html url : str) :
  detect_html_type html url = Ok (py "forum") ->
  exists s, BeautifulSoup html = Ok s /\ forum_vocabulary s.
Proof.
  intros H. destruct (detect_cases html url)
    as [[_ Hw]|[_ [(s & Hs & Hv & _)|[(s & _ & _ & Ha)|(e & _ & He)]]]].
  - rewrite H in Hw. injection Hw as Hw. vm_compute in Hw. discriminate.
  - now exists s.
  - rewrite H in Ha. injection Ha as Ha. vm_compute in Ha. discriminate.
  - rewrite H in He. discriminate.
Qed.

Lemma token_gives_forum_vocabulary (s : soup) (k tok : str) :
  In k forum_indicators -> is_ascii k ->
  In tok (page_tokens s) -> occurs_nocase k tok ->
  forum_vocabulary s.
Proof.
  intros Hk Hascii Htok Hocc. exists k. split; [exact Hk|].
  unfold classes_and_ids. apply lower_occurs_nocase; [exact Hascii|].
  apply occurs_nocase_inside with (tok := tok); [exact Hocc|].
  now apply occurs_in_join.
Qed.

Lemma forum_vocabulary_gives_token (s : soup) :
  is_ascii (join (py " ") (page_tokens s)) ->
  forum_vocabulary s ->
  exists k tok,
    In k forum_indicators /\ In tok (page_tokens s) /\ occurs_nocase k tok.
Proof.
  intros Hascii (k & Hk & Hocc). unfold classes_and_ids in Hocc.
  apply (occurs_lower_ascii Hascii) in Hocc.
  destruct Hocc as (a & m & b & Hj & Hm).
  destruct (@forum_indicators_no_space k Hk) as [Hne Hsp].
  assert (Hm_ne : m <> []) by (intros ->; now apply Hne).
  assert (Hm_sp : ~ In 32%N m).
  { intros Hin. apply Hsp. rewrite <- Hm.
    change 32%N with (ascii_lower 32). now apply in_map. }
  destruct (@join_occurrence_in_piece 32%N m _ Hm_sp Hm_ne a b Hj)
    as (tok & Hin & (a' & b' & ->)).
  exists k, (a' ++ m ++ b'). split; [exact Hk|]. split; [exact Hin|].
  now exists a', m, b'.
Qed.

(** One class token or one id is enough for the forum label: when the URL
    is not the platform's, the parser has returned the document, and an
    ASCII keyword occurs, in any case of letters, anywhere inside a single
    class token or id, also in the middle of a longer word, the page is a
    forum. *)
Theorem forum_keyword_inside_a_token (html url k tok : str) (s : soup) :
  ~ url_matches_platform url ->
  BeautifulSoup html = Ok s ->
  In k forum_indicators -> is_ascii k ->
  In tok (page_tokens s) ->
  occurs_nocase k tok ->
  detect_html_type html url = Ok (py "forum").
Proof.
  intros Hn Hs Hk Hascii Htok Hocc. apply (detect_forum _ Hn Hs).
  exact (token_gives_forum_vocabulary _ Hk Hascii Htok Hocc).
Qed.

(** For a page whose class tokens and ids are ASCII, the forum label is
    given only when a keyword occurs, up to case, inside one single class
    token or id of the parsed document: no match runs across two of
    them. *)
Theorem forum_label_comes_from_a_token (html url : str) :
  (forall s, BeautifulSoup html = Ok s ->
             is_ascii (join (py " ") (page_tokens s))) ->
  detect_html_type html url = Ok (py "forum") ->
  exists s k tok,
    BeautifulSoup html = Ok s
    /\ In k forum_indicators
    /\ In tok (page_tokens s)
    /\ occurs_nocase k tok.
Proof.
  intros Hascii H. apply detect_forum_inv in H.
  destruct H as (s & Hs & Hv).
  destruct (forum_vocabulary_gives_token (Hascii s Hs) Hv)
    as (k & tok & Hk & Htok & Hocc).
  now exists s, k, tok.
Qed.

(** A page whose tags carry no class token and no id is an article, unless
    the URL is the platform's. *)
Theorem page_without_tokens_is_article (html url : str) (s : soup) :
  ~ url_matches_platform url ->
  BeautifulSoup html = Ok s ->
  page_tokens s = [] ->
  detect_html_type html url = Ok (py "article").
Proof.
  intros Hn Hs Ht. rewrite (detect_parsed _ Hn Hs).
  unfold classes_and_ids. fold (page_tokens s).
  rewrite Ht. reflexivity.
Qed.

End ForumFacts.

(** ** The charset of the header *)

Lemma startswith_long (p a b : str) :
  length p <= length a -> startswith p (a ++ b) = startswith p a.
Proof.
  revert a. induction p as [|c p IH]; intros a Hlen; [reflexivity|].
  destruct a as [|x a]; [simpl in Hlen; lia|].
  simpl. rewrite IH; [reflexivity|simpl in Hlen; lia].
Qed.

(** Without an occurrence of the separator there is one piece. *)
Lemma split_from_absent (sep s cur : str) :
  contains sep s = false -> split_from sep 0 cur s = [rev cur ++ s].
Proof.
  revert cur. induction s as [|c s IH]; intros cur H.
  - simpl. now rewrite app_nil_r.
  - rewrite contains_unfold in H. apply orb_false_elim in H.
    destruct H as [Hp Hs]. cbn [split_from]. rewrite Hp, (IH _ Hs).
    simpl. now rewrite <- app_assoc.
Qed.

(** The first piece ends where the first occurrence starts: no occurrence
    starts inside [pre] when [pre], followed by the separator less its last
    code point, holds none. *)
Lemma split_from_first (sep w : str) (z : N) (pre u cur : str) :
  sep = w ++ [z] ->
  contains sep (pre ++ w) = false ->
  split_from sep 0 cur (pre ++ sep ++ u)
  = (rev cur ++ pre) :: split_from sep 0 [] u.
Proof.
  intros Hsep. revert cur. induction pre as [|x pre IH]; intros cur H.
  - destruct sep as [|c0 sep'] eqn:Hs; [now destruct w|].
    simpl app. cbn [split_from].
    change (c0 :: sep' ++ u) with ((c0 :: sep') ++ u).
    rewrite startswith_app.
    replace (length (c0 :: sep') - 1) with (length sep') by (simpl; lia).
    now rewrite split_from_skips, app_nil_r.
  - simpl app in *. rewrite contains_unfold in H. apply orb_false_elim in H.
    destruct H as [Hp Hc]. cbn [split_from].
    assert (Hp' : startswith sep (x :: pre ++ sep ++ u) = false).
    { rewrite Hsep at 2. rewrite <- app_assoc.
      change (x :: pre ++ w ++ [z] ++ u) with ((x :: pre) ++ w ++ [z] ++ u).
      rewrite app_assoc, startswith_long; [exact Hp|].
      rewrite Hsep. simpl. rewrite !length_app. simpl. lia. }
    rewrite Hp', (IH _ Hc). simpl. now rewrite <- app_assoc.
Qed.

Lemma charset_of_value (pre cs tail : str) :
  contains (py "charset=") (pre ++ py "charset") = false ->
  contains (py ";") cs = false ->
  contains (py "charset=") (cs ++ tail) = false ->
  tail = [] \/ (exists rest, tail = py ";" ++ rest) ->
  charset_of (pre ++ py "charset=" ++ cs ++ tail) = cs.
Proof.
  intros Hpre Hcs Htail Hshape. unfold charset_of, split.
  rewrite (@split_from_first (py "charset=") (py "charset") 61%N pre
             (cs ++ tail) [] eq_refl Hpre).
  rewrite (@split_from_absent (py "charset=") (cs ++ tail) [] Htail).
  cbn [last rev app].
  destruct Hshape as [->|[rest ->]].
  - rewrite app_nil_r, (@split_from_absent (py ";") cs [] Hcs). reflexivity.
  - rewrite (@split_from_first (py ";") [] 59%N cs rest [] eq_refl);
      [reflexivity|]. now rewrite app_nil_r.
Qed.

Section HeaderFacts.
Context {E : Externals}.

(** The charset read from an ASCII header is the text between the first
    [charset=], in any case of letters, and the next [;] or the end of the
    header, lowered and otherwise as it stands, quotes and spaces
    included; a response without the header names none. *)
Theorem declared_charset_reads_the_header (r : Response) :
  (forall v pre cs tail,
      content_type r = Some v ->
      map ascii_lower v = pre ++ py "charset=" ++ cs ++ tail ->
      contains (py "charset=") (pre ++ py "charset") = false ->
      contains (py ";") cs = false ->
      contains (py "charset=") (cs ++ tail) = false ->
      tail = [] \/ (exists rest, tail = py ";" ++ rest) ->
      is_ascii (pre ++ cs ++ tail) ->
      declared_charset r = Some cs)
  /\ (content_type r = None -> declared_charset r = None).
Proof.
  split.
  - intros v pre cs tail Hv Hlow Hpre Hcs Htail Hshape Hascii.
    assert (Ha : is_ascii v).
    { apply map_ascii_lower_is_ascii. rewrite Hlow.
      unfold is_ascii in *. rewrite !Forall_app in *.
      destruct Hascii as (H1 & H2 & H3). repeat split; try assumption.
      apply is_ascii_forallb. reflexivity. }
    unfold declared_charset. rewrite Hv, (lower_ascii Ha), Hlow.
    rewrite contains_app. now rewrite charset_of_value.
  - intros Hv. unfold declared_charset. rewrite Hv. reflexivity.
Qed.

End HeaderFacts.

(** ** Errors of the endpoint *)

Section EndpointErrors.
Context {E : Externals}.

(** Every error of the endpoint is an [HTTPException] with status 500
    whose detail is the text of the first call that raised: the fetch, the
    classification (whose only error is the parser's, for a URL that is
    not the platform's), the extraction or the conversion, in this
    order. *)
Theorem extract_content_error_detail (url : str) (f : option Format) (e' : exn) :
  extract_content url f = Raise e' ->
  exists e,
    e' = HTTPException 500 (exn_str e)
    /\ (fetch_url url = Raise e
        \/ exists html,
             fetch_url url = Ok html
             /\ ((detect_html_type html url = Raise e
                  /\ BeautifulSoup html = Raise e
                  /\ ~ url_matches_platform url)
                 \/ exists t,
                      detect_html_type html url = Ok t
                      /\ (extractor_extract html url t = Raise e
                          \/ exists data,
                               extractor_extract html url t = Ok data
                               /\ convert_content (extract_html_content data)
                                    (format_str (or_default f)) = Raise e))).
Proof.
  unfold extract_content, try_except, bind, any_exception.
  destruct (fetch_url url) as [html|e] eqn:Hf; cbv beta iota.
  2: { intros H. injection H as <-. exists e. split; [reflexivity|now left]. }
  destruct (detect_html_type html url) as [t|e] eqn:Ht; cbv beta iota.
  2: { intros H. injection H as <-. exists e. split; [reflexivity|].
       right. exists html. split; [reflexivity|]. left.
       destruct (detect_cases html url)
         as [[_ Hw]|[Hn [(s & _ & _ & Hx)|[(s & _ & _ & Hx)|(e0 & Hs & Hx)]]]];
         rewrite Ht in *; try discriminate.
       injection Hx as ->. split; [first [exact Ht|reflexivity]|]. now split. }
  destruct (extractor_extract html url t) as [data|e] eqn:He; cbv beta iota.
  2: { intros H. injection H as <-. exists e. split; [reflexivity|].
       right. exists html. split; [reflexivity|]. right. exists t.
       split; [exact Ht|now left]. }
  destruct (convert_content _ _) as [c|e] eqn:Hc; cbv beta iota;
    [discriminate|].
  intros H. injection H as <-. exists e. split; [reflexivity|].
  right. exists html. split; [reflexivity|]. right. exists t.
  split; [exact Ht|]. right. now exists data.
Qed.

End EndpointErrors.

(** ** Image links that do not close *)

Lemma relabel_images_from_other (c : N) (s : str) :
  c <> 33%N ->
  relabel_images_from false (c :: s) = c :: relabel_images_from false s.
Proof.
  intros Hc. rewrite relabel_images_from_scan.
  change (py "![](") with [33; 91; 93; 40]%N. cbn [startswith].
  assert (H : (33 =? c)%N = false) by (apply N.eqb_neq; congruence).
  now rewrite H.
Qed.

(** The image rewrite does not reach over a line break: [![](] whose
    target meets a newline, or the end of the text, before any [)] stays
    as it is, and the scan goes on behind it. *)
Theorem relabel_images_stays_on_the_line (rest : str) :
  closes_on_line rest = false ->
  relabel_images (py "![](" ++ rest) = py "![](" ++ relabel_images rest.
Proof.
  intros H. unfold relabel_images.
  change (py "![](") with [33; 91; 93; 40]%N. simpl app.
  rewrite relabel_images_from_scan. simpl skipn.
  rewrite H, andb_false_r.
  rewrite !relabel_images_from_other by discriminate.
  reflexivity.
Qed.

(** ** The further properties at work *)

Lemma clean_markdown_is_stripped_spaced :
  clean_markdown Sample.spaced_lines = 97%N :: [NL; NL; NL; 98%N]
  /\ isspace 97%N = false.
Proof.
  split; [reflexivity|].
  exact (proj1 (proj2 (clean_markdown_is_stripped Sample.spaced_lines))
           97%N [NL; NL; NL; 98%N] eq_refl).
Defined.

Lemma extract_html_content_is_stored_page :
  In (py "html", PyStr (py "<p>hi</p>"))
     [(py "title", PyStr (py "t")); (py "html", PyStr (py "<p>hi</p>"))]
  /\ In (py "html",
         extract_html_content
           (Dict [(py "title", PyStr (py "t"));
                  (py "html", PyStr (py "<p>hi</p>"))]))
       [(py "title", PyStr (py "t")); (py "html", PyStr (py "<p>hi</p>"))].
Proof.
  assert (H : In (py "html", PyStr (py "<p>hi</p>"))
                [(py "title", PyStr (py "t"));
                 (py "html", PyStr (py "<p>hi</p>"))]) by (right; now left).
  split; [exact H|].
  exact (proj2 (extract_html_content_is_stored _) _ _ eq_refl H).
Defined.

Lemma text_output_is_stripped_page :
  convert_content (E := SamplePage.world) (PyStr Sample.page_html) (py "text")
  = Ok (py "garden notes")
  /\ strip (py "garden notes") = py "garden notes".
Proof.
  assert (H : convert_content (E := SamplePage.world)
                (PyStr Sample.page_html) (py "text")
              = Ok (py "garden notes")) by reflexivity.
  split; [exact H|].
  exact (proj1 (@text_output_is_stripped SamplePage.world _ _ H)).
Defined.

Lemma run_substitutions_touch_runs_only_lines :
  sub_run NL 3 [NL; NL] (py "a" ++ repeat NL 5 ++ py "b")
  = py "a" ++ [NL; NL] ++ py "b".
Proof.
  destruct run_substitutions_touch_runs_only as (_ & _ & H).
  rewrite H.
  - reflexivity.
  - lia.
  - intros a' Ha. apply (f_equal (fun l => last l 0%N)) in Ha.
    rewrite last_last in Ha. vm_compute in Ha. discriminate.
  - intros b' Hb. vm_compute in Hb. discriminate.
Defined.

Lemma clean_markdown_keeps_clean_text_sample :
  clean_markdown SamplePage.clean_text = SamplePage.clean_text.
Proof.
  apply clean_markdown_keeps_clean_text; try reflexivity.
  intros line Hin. vm_compute in Hin.
  repeat (destruct Hin as [<-|Hin]; [reflexivity|]). destruct Hin.
Defined.

Lemma fetch_url_returns_a_decoding_plain :
  fetch_url (E := Sample.world) Sample.plain_url = Ok (py "hello")
  /\ exists r, fetched (E := Sample.world) Sample.plain_url r.
Proof.
  assert (H : fetch_url (E := Sample.world) Sample.plain_url
              = Ok (py "hello")) by reflexivity.
  split; [exact H|].
  destruct (@fetch_url_returns_a_decoding Sample.world _ _ H)
    as (r & Hr & _).
  now exists r.
Defined.

Lemma extract_content_payload_page :
  exists p,
    extract_content (E := SamplePage.world) Sample.page_url None = Ok p
    /\ url_of p = Sample.page_url
    /\ format_of p = py "text"
    /\ type_of p = py "forum"
    /\ content_of p = py "garden notes".
Proof.
  eexists. split; [reflexivity|].
  destruct (@extract_content_payload SamplePage.world
              Sample.page_url None _ eq_refl)
    as (html & data & _ & _ & _ & _ & Hu & Hfmt & _).
  split; [exact Hu|]. split; [exact Hfmt|]. split; reflexivity.
Defined.

Lemma ascii_url_is_not_platform (W : Externals) (url : str) :
  forallb (fun c => (c <? 128)%N) url = true ->
  existsb (fun d => contains d (map ascii_lower url)) platform_domains = false ->
  ~ url_matches_platform (E := W) url.
Proof.
  intros Ha Hd H. apply platform_test_true in H.
  rewrite lower_ascii in H by now apply is_ascii_forallb.
  congruence.
Qed.

Lemma forum_keyword_inside_a_token_composting :
  occurs_nocase (py "post") (py "Composting")
  /\ detect_html_type (E := SamplePage.world) Sample.page_html Sample.page_url
     = Ok (py "forum").
Proof.
  assert (H : occurs_nocase (py "post") (py "Composting")).
  { exists (py "Com"), (py "post"), (py "ing"). split; reflexivity. }
  split; [exact H|].
  apply (@forum_keyword_inside_a_token SamplePage.world
           Sample.page_html Sample.page_url (py "post") (py "Composting")
           Sample.page).
  - apply ascii_url_is_not_platform; reflexivity.
  - reflexivity.
  - right. right. right. now left.
  - apply is_ascii_forallb. reflexivity.
  - now left.
  - exact H.
Defined.

Lemma forum_label_comes_from_a_token_page :
  exists s k tok,
    BeautifulSoup (Externals := SamplePage.world) Sample.page_html = Ok s
    /\ In k forum_indicators
    /\ In tok (page_tokens s)
    /\ occurs_nocase k tok.
Proof.
  apply (@forum_label_comes_from_a_token SamplePage.world
           Sample.page_html Sample.page_url).
  - intros s Hs. change (Ok Sample.page = Ok s) in Hs. injection Hs as <-.
    apply is_ascii_forallb. reflexivity.
  - reflexivity.
Defined.

Lemma page_without_tokens_is_article_plain :
  detect_html_type (E := Sample.world) (py "hello") Sample.plain_url
  = Ok (py "article").
Proof.
  apply (@page_without_tokens_is_article Sample.world (py "hello")
           Sample.plain_url [NavigableString (py "hello")]).
  - apply ascii_url_is_not_platform; reflexivity.
  - reflexivity.
  - reflexivity.
Defined.

Lemma declared_charset_reads_the_header_quoted :
  declared_charset (E := Sample.world) SamplePage.quoted_response
  = Some ([SamplePage.QUOTE] ++ py "utf-8" ++ [SamplePage.QUOTE]).
Proof.
  apply (proj1 (@declared_charset_reads_the_header Sample.world
                  SamplePage.quoted_response)
           SamplePage.quoted_header (py "text/html; ")
           ([SamplePage.QUOTE] ++ py "utf-8" ++ [SamplePage.QUOTE])
           (py "; boundary=x")); try reflexivity.
  - right. now exists (py " boundary=x").
  - apply is_ascii_forallb. reflexivity.
Defined.

Lemma extract_content_error_detail_refused :
  exists e,
    extract_content (E := Sample.world) Sample.refused_url None
    = Raise (HTTPException 500 (exn_str e))
    /\ fetch_url (E := Sample.world) Sample.refused_url
       = Ok Sample.refused_html
    /\ BeautifulSoup (Externals := Sample.world) Sample.refused_html
       = Raise e.
Proof.
  destruct (@extract_content_error_detail Sample.world
              Sample.refused_url None _ eq_refl) as (e & He & Hcase).
  exists e. split; [now rewrite <- He|]. split; [reflexivity|].
  destruct Hcase as [H|(html & H & Hcase)]; [vm_compute in H; discriminate|].
  change (Ok Sample.refused_html = Ok html) in H. injection H as <-.
  destruct Hcase as [(_ & Hp & _)|(t & Ht & _)]; [exact Hp|].
  vm_compute in Ht. discriminate.
Defined.

Lemma relabel_images_stays_on_the_line_break :
  relabel_images (py "![](" ++ py "a" ++ [NL] ++ py "b)")
  = py "![](" ++ py "a" ++ [NL] ++ py "b)".
Proof.
  rewrite relabel_images_stays_on_the_line; reflexivity.
Defined.

(** * The parsed document *)

(** ** What the code collects is what the tree holds *)

Lemma flat_map_descendants_gather {A : Type} (g : PageElement -> list A)
    (e : PageElement) :
  flat_map g (descendants e) = gather g e.
Proof.
  induction e as [t|t|name cl i cs IH] using PageElement_nested_ind;
    try reflexivity.
  cbn [descendants gather flat_map]. f_equal.
  rewrite flat_map_flat_map. now apply flat_map_ext_Forall.
Qed.

Lemma flat_map_elements_gather {A : Type} (g : PageElement -> list A)
    (s : soup) :
  flat_map g (elements s) = flat_map (gather g) s.
Proof.
  unfold elements. rewrite flat_map_flat_map. apply flat_map_ext.
  intros e. apply flat_map_descendants_gather.
Qed.


Lemma concat_flat_map {A B : Type} (f : A -> list (list B)) (l : list A) :
  concat (flat_map f l) = flat_map (fun x => concat (f x)) l.
Proof.
  induction l as [|x l IH]; simpl; [reflexivity|].
  now rewrite concat_app, IH.
Qed.

Lemma page_tokens_document (s : soup) :
  page_tokens s
  = flat_map (gather own_classes) s ++ flat_map (gather own_id) s.
Proof.
  unfold page_tokens, class_lists, ids.
  rewrite concat_flat_map, <- !flat_map_elements_gather. f_equal.
  apply flat_map_ext. intros [t|t|name [cl|] i cs]; simpl; try reflexivity.
  apply app_nil_r.
Qed.

Lemma descendants_self (e : PageElement) : In e (descendants e).
Proof. destruct e; simpl; now left. Qed.

Lemma descendants_child (c e : PageElement) name cl i cs :
  In c cs -> In e (descendants c) -> In e (descendants (Tag name cl i cs)).
Proof.
  intros Hc He. cbn [descendants]. right. apply in_flat_map. now exists c.
Qed.

Lemma in_descendants_inv (x e : PageElement) :
  In e (descendants x) ->
  e = x
  \/ exists name cl i cs c,
       x = Tag name cl i cs /\ In c cs /\ In e (descendants c).
Proof.
  destruct x as [t|t|name cl i cs]; cbn [descendants]; intros [H|H];
    try (now left); try destruct H.
  right. apply in_flat_map in H. destruct H as (c & Hc & He).
  now exists name, cl, i, cs, c.
Qed.

Lemma descendants_trans (y : PageElement) :
  forall x e, In x (descendants y) -> In e (descendants x) ->
              In e (descendants y).
Proof.
  induction y as [t|t|name cl i cs IH] using PageElement_nested_ind;
    intros x e Hx He.
  - destruct Hx as [<-|[]]. exact He.
  - destruct Hx as [<-|[]]. exact He.
  - destruct (in_descendants_inv _ _ Hx)
      as [->|(n & c0 & i0 & cs0 & c & Heq & Hc & Hin)]; [exact He|].
    injection Heq as <- <- <- <-.
    rewrite Forall_forall in IH.
    apply descendants_child with (c := c); [exact Hc|].
    now apply (IH c Hc x e).
Qed.

Lemma below_in_document (s : soup) (y : PageElement) :
  in_document y s -> forall e, In e (descendants y) -> in_document e s.
Proof.
  induction y as [t|t|name cl i cs IH] using PageElement_nested_ind;
    intros Hy e He.
  - destruct He as [<-|[]]. exact Hy.
  - destruct He as [<-|[]]. exact Hy.
  - destruct (in_descendants_inv _ _ He)
      as [->|(n & c0 & i0 & cs0 & c & Heq & Hc & Hin)]; [exact Hy|].
    injection Heq as <- <- <- <-.
    rewrite Forall_forall in IH. apply (IH c Hc); [|exact Hin].
    now apply in_document_below with (1 := Hy).
Qed.

(** The elements that the code walks over are the elements of the tree. *)
Lemma in_document_elements (e : PageElement) (s : soup) :
  in_document e s <-> In e (elements s).
Proof.
  unfold elements. split.
  - induction 1 as [e s He|e name cl i cs s _ IH He].
    + apply in_flat_map. exists e. split; [exact He|apply descendants_self].
    + apply in_flat_map in IH. destruct IH as (y & Hy & Ht).
      apply in_flat_map. exists y. split; [exact Hy|].
      apply descendants_trans with (1 := Ht).
      apply descendants_child with (c := e); [exact He|].
      apply descendants_self.
  - intros H. apply in_flat_map in H. destruct H as (y & Hy & He).
    apply below_in_document with (y := y); [|exact He].
    now apply in_document_top.
Qed.

Lemma token_of_document_tokens (tok : str) (s : soup) :
  token_of_document tok s <-> In tok (page_tokens s).
Proof.
  unfold token_of_document, page_tokens, class_lists, ids. split.
  - intros (name & cl & i & cs & Hd & Htok).
    apply in_document_elements in Hd. apply in_or_app.
    destruct Htok as [(l & -> & Hl)| ->].
    + left. apply in_concat. exists l. split; [|exact Hl].
      apply in_flat_map. eexists. split; [exact Hd|]. now left.
    + right. apply in_flat_map. eexists. split; [exact Hd|]. now left.
  - intros H. apply in_app_or in H. destruct H as [H|H].
    + apply in_concat in H. destruct H as (l & Hl & Htok).
      apply in_flat_map in Hl. destruct Hl as (e & He & Hl).
      destruct e as [t|t|name [cl|] i cs]; simpl in Hl;
        try contradiction.
      destruct Hl as [->|[]].
      exists name, (Some l), i, cs. split.
      * now apply in_document_elements.
      * left. now exists l.
    + apply in_flat_map in H. destruct H as (e & He & Hi).
      destruct e as [t|t|name cl [i|] cs]; simpl in Hi;
        try contradiction.
      destruct Hi as [->|[]].
      exists name, cl, (Some tok), cs. split.
      * now apply in_document_elements.
      * now right.
Qed.


(** ** The classifier on the document *)

Section ClassifierRules.
Context {E : Externals}.

Lemma classes_and_ids_document (s : soup) :
  classes_and_ids s = lower (document_vocabulary s).
Proof.
  unfold classes_and_ids, document_vocabulary.
  fold (page_tokens s). now rewrite page_tokens_document.
Qed.

Lemma forum_vocabulary_document (s : soup) :
  forum_vocabulary s
  <-> exists k, In k forum_keywords
                /\ occurs k (lower (document_vocabulary s)).
Proof.
  unfold forum_vocabulary. rewrite classes_and_ids_document. reflexivity.
Qed.

Lemma labels_distinct : NoDup labels.
Proof.
  repeat constructor; simpl; intros H;
    repeat (destruct H as [H|H]; [vm_compute in H; discriminate|]);
    exact H.
Qed.

(** C4: the classifier applies three rules in order and the first match
    wins.

    - A URL that holds [mp.weixin.qq.com] or [weixin.qq.com], in any case
      of letters, gives ["weixin"] whatever the page is, also a page that
      the parser would refuse.
    - Otherwise, the parser having returned the document: a forum keyword
      in the class tokens and ids of all its elements, joined by spaces and
      lowered, gives ["forum"]; so does an ASCII keyword inside one class
      token or one id of any element of the tree, in any case.
    - Otherwise the label is ["article"]; for a document whose tokens are
      ASCII this is the case exactly when no class token and no id of any
      element holds a keyword.

    What the classifier returns is one of the three labels, which are
    pairwise distinct; it returns one whenever the parser returns, and what
    it raises is what the parser raised, for a URL that is not the
    platform's. *)
Theorem detect_html_type_rules (html url : str) :
  (occurs_nocase (py "mp.weixin.qq.com") url
   \/ occurs_nocase (py "weixin.qq.com") url
   \/ occurs (py "mp.weixin.qq.com") url
   \/ url_matches_platform url ->
   detect_html_type html url = Ok (py "weixin"))
  /\ (forall s,
         ~ url_matches_platform url -> BeautifulSoup html = Ok s ->
         ((exists k, In k forum_keywords
                     /\ occurs k (lower (document_vocabulary s))) ->
          detect_html_type html url = Ok (py "forum"))
         /\ (~ (exists k, In k forum_keywords
                          /\ occurs k (lower (document_vocabulary s))) ->
             detect_html_type html url = Ok (py "article"))
         /\ (forall k tok,
                In k forum_keywords -> is_ascii k ->
                token_of_document tok s -> occurs_nocase k tok ->
                detect_html_type html url = Ok (py "forum"))
         /\ (is_ascii (document_vocabulary s) ->
             (forall k tok,
                 In k forum_keywords -> token_of_document tok s ->
                 ~ occurs_nocase k tok) ->
             detect_html_type html url = Ok (py "article")))
  /\ (forall l, detect_html_type html url = Ok l -> In l labels)
  /\ (forall s, BeautifulSoup html = Ok s ->
                exists l, detect_html_type html url = Ok l)
  /\ (forall e, detect_html_type html url = Raise e ->
                BeautifulSoup html = Raise e /\ ~ url_matches_platform url)
  /\ NoDup labels.
Proof.
  split.
  { intros [H|[H|[H|H]]]; apply detect_weixin.
    - now apply nocase_matches_platform with (d := py "mp.weixin.qq.com");
        [left|].
    - now apply nocase_matches_platform with (d := py "weixin.qq.com");
        [right; left|].
    - apply nocase_matches_platform with (d := py "mp.weixin.qq.com");
        [now left|].
      apply occurs_nocase_refl_ascii; [reflexivity|exact H].
    - exact H. }
  split.
  { intros s Hn Hs. split; [|split; [|split]].
    - intros Hv. apply (detect_forum _ Hn Hs).
      now apply forum_vocabulary_document.
    - intros Hv. apply (detect_article _ Hn Hs).
      intros H. now apply Hv, forum_vocabulary_document.
    - intros k tok Hk Hascii Htok Hocc. apply (detect_forum _ Hn Hs).
      apply token_of_document_tokens in Htok.
      exact (token_gives_forum_vocabulary _ Hk Hascii Htok Hocc).
    - intros Hascii Hnone. apply (detect_article _ Hn Hs). intros Hv.
      unfold document_vocabulary in Hascii.
      rewrite <- page_tokens_document in Hascii.
      destruct (forum_vocabulary_gives_token Hascii Hv)
        as (k & tok & Hk & Htok & Hocc).
      apply token_of_document_tokens in Htok.
      exact (Hnone k tok Hk Htok Hocc). }
  split; [intros l; apply detect_label|].
  split.
  { intros s Hs. destruct (detect_cases html url)
      as [[_ Hw]|[_ [(s' & _ & _ & Hf)|[(s' & _ & _ & Ha)|(e & He & _)]]]];
      eauto. congruence. }
  split; [|exact labels_distinct].
  intros e He. destruct (detect_cases html url)
    as [[_ Hw]|[Hn [(s' & _ & _ & Hf)|[(s' & _ & _ & Ha)|(e' & Hp & Hr)]]]];
    try congruence.
  rewrite He in Hr. injection Hr as ->. now split.
Qed.

End ClassifierRules.

(** C4 in the sample world: the page of the sample, whose only element has
    the class token [Composting], is a forum at its own URL, through the
    keyword [post], and an article of the platform at a URL of the
    platform. *)
Lemma detect_html_type_rules_page :
  token_of_document (py "Composting") Sample.page
  /\ detect_html_type (E := Sample.world) Sample.page_html Sample.page_url
     = Ok (py "forum")
  /\ detect_html_type (E := Sample.world) Sample.page_html
       (py "https://MP.weixin.qq.com/s/garden") = Ok (py "weixin").
Proof.
  assert (Htok : token_of_document (py "Composting") Sample.page).
  { exists (py "div"), (Some [py "Composting"; py "wide"]), (Some (py "main")),
      [NavigableString (py " garden notes ")].
    split; [apply in_document_top; now left|]. left. eexists.
    split; [reflexivity|now left]. }
  split; [exact Htok|]. split.
  - destruct (detect_html_type_rules (E := Sample.world)
                Sample.page_html Sample.page_url) as (_ & Hrules & _).
    destruct (Hrules Sample.page) as (_ & _ & Htoken & _).
    + apply ascii_url_is_not_platform; reflexivity.
    + reflexivity.
    + apply (Htoken (py "post") (py "Composting")).
      * right. right. right. now left.
      * apply is_ascii_forallb. reflexivity.
      * exact Htok.
      * exists (py "Com"), (py "post"), (py "ing"). split; reflexivity.
  - apply (proj1 (detect_html_type_rules (E := Sample.world)
                    Sample.page_html (py "https://MP.weixin.qq.com/s/garden"))).
    left. exists (py "https://"), (py "MP.weixin.qq.com"), (py "/s/garden").
    split; reflexivity.
Defined.

(** ** The text format on the document *)




Section TextFormat.
Context {E : Externals}.



End TextFormat.


(** ** The policy of the fetcher, seen from the endpoint *)

Section FetcherPolicy.
Context {E : Externals}.

Lemma detected_encoding_empty (b : bytes) :
  chardet_detect b = None \/ chardet_detect b = Some [] ->
  detected_encoding b = py "utf-8".
Proof.
  unfold detected_encoding. intros [H|H]; rewrite H; reflexivity.
Qed.

(** C5, on the code.  The decoding goes by stages: the charset of the
    header first; when the header names none or that decoding raises,
    UTF-8; when UTF-8 raises [UnicodeDecodeError], the detected encoding,
    which is GB18030 for a detected GB2312 or GBK, the detected name
    otherwise, and UTF-8 when nothing is detected.  A decoding that fails
    at the last stage makes the endpoint answer 500.  A failed fetch makes
    the fetcher raise an [HTTPException] with status 400, and yet the
    endpoint answers 500 for it too: its own handler catches the
    exception of the fetcher. *)
Theorem fetch_url_policy (url : str) (f : option Format) :
  (forall r,
      fetched url r ->
      (forall cs text,
          declared_charset r = Some cs ->
          decode (content r) cs = Ok text ->
          fetch_url url = Ok text)
      /\ (header_charset_unusable r ->
          (forall text, decode (content r) (py "utf-8") = Ok text ->
                        fetch_url url = Ok text)
          /\ (forall m,
                 decode (content r) (py "utf-8")
                 = Raise (UnicodeDecodeError m) ->
                 (forall text,
                     decode (content r) (detected_encoding (content r))
                     = Ok text ->
                     fetch_url url = Ok text)
                 /\ (forall e,
                        decode (content r) (detected_encoding (content r))
                        = Raise e ->
                        http_status (extract_content url f) = 500%Z))))
  /\ (forall b,
         (forall enc,
             chardet_detect b = Some enc ->
             In (lower enc) [py "gb2312"; py "gbk"] ->
             detected_encoding b = py "gb18030")
         /\ (forall enc,
                chardet_detect b = Some enc -> enc <> [] ->
                ~ In (lower enc) [py "gb2312"; py "gbk"] ->
                detected_encoding b = enc)
         /\ (chardet_detect b = None \/ chardet_detect b = Some [] ->
             detected_encoding b = py "utf-8"))
  /\ (fetch_failure url ->
      (exists d, fetch_url url = Raise (HTTPException 400 d))
      /\ http_status (extract_content url f) = 500%Z).
Proof.
  split; [|split].
  - intros r Hf. split.
    + intros cs text Hc Hd. rewrite (fetch_url_fetched Hf).
      now rewrite (decode_response_declared _ Hc Hd).
    + intros Hh. split.
      * intros text Hd. rewrite (fetch_url_fetched Hf).
        now rewrite (decode_response_utf8 Hh Hd).
      * intros m Hu. split.
        -- intros text Hd. rewrite (fetch_url_fetched Hf).
           now rewrite (decode_response_detected Hh Hu), Hd.
        -- intros e Hd.
           rewrite (@extract_content_fetch_raises E url f (fetch_error e));
             [reflexivity|].
           rewrite (fetch_url_fetched Hf).
           now rewrite (decode_response_detected Hh Hu), Hd.
  - intros b. split; [|split].
    + intros enc. apply detected_encoding_gb.
    + intros enc Hd Hne. apply detected_encoding_other; [exact Hd|].
      now apply truthy_nonempty.
    + apply detected_encoding_empty.
  - intros H. destruct (fetch_url_failure H) as [e He]. split.
    + eexists. exact He.
    + now rewrite (@extract_content_fetch_raises E url f (fetch_error e)).
Qed.

End FetcherPolicy.

(** C5 in the sample world: the page that is not there is answered 500,
    though the fetcher raises 400 for it. *)
Lemma fetch_url_policy_missing :
  fetch_failure (E := Sample.world) Sample.missing_url
  /\ (exists d, fetch_url (E := Sample.world) Sample.missing_url
                = Raise (HTTPException 400 d))
  /\ http_status (extract_content (E := Sample.world) Sample.missing_url None)
     = 500%Z.
Proof.
  assert (H : fetch_failure (E := Sample.world) Sample.missing_url).
  { right. exists Sample.missing_response. split; [reflexivity|].
    cbn. lia. }
  split; [exact H|].
  exact (proj2 (proj2 (fetch_url_policy (E := Sample.world)
                         Sample.missing_url None)) H).
Defined.

(** ** The clean-up as a whole *)

(** On a text without three newlines in a row and with stripped lines, the
    first two steps do nothing. *)
Lemma clean_markdown_on_clean_lines (text : str) :
  contains [NL; NL; NL] text = false ->
  (forall line, In line (split [NL] text) -> strip line = line) ->
  clean_markdown text = strip (relabel_images (sub_run EQUALS 3 [] text)).
Proof.
  intros Hnl Hlines. unfold clean_markdown.
  rewrite (@sub_run_id NL [NL; NL] text Hnl).
  rewrite map_fixed by exact Hlines.
  now rewrite join_split by discriminate.
Qed.

(** The first image link without a label is rewritten where it stands: no
    [![](] starts in [a] when [a], followed by [![]], holds none. *)
Lemma relabel_images_first (a x rest : str) :
  contains (py "![](") (a ++ py "![]") = false ->
  Forall (fun c => c <> RPAREN /\ c <> NL) x ->
  relabel_images (a ++ py "![](" ++ x ++ RPAREN :: rest)
  = a ++ py "![图片](" ++ x ++ RPAREN :: relabel_images rest.
Proof.
  intros Ha Hx. induction a as [|c a IH].
  - now apply relabel_images_empty_label.
  - rewrite <- app_comm_cons in Ha. rewrite contains_unfold in Ha.
    apply orb_false_elim in Ha. destruct Ha as [Hp Hc].
    specialize (IH Hc). unfold relabel_images in *.
    rewrite <- !app_comm_cons. rewrite relabel_images_from_scan.
    assert (Hp' : startswith (py "![](")
                    (c :: a ++ py "![](" ++ x ++ RPAREN :: rest) = false).
    { replace (c :: a ++ py "![](" ++ x ++ RPAREN :: rest)
        with ((c :: a ++ py "![]") ++ 40%N :: x ++ RPAREN :: rest).
      - rewrite startswith_long; [exact Hp|].
        simpl. rewrite length_app. simpl. lia.
      - rewrite <- app_comm_cons, <- app_assoc. reflexivity. }
    rewrite Hp'. cbn [andb]. now rewrite IH.
Qed.

(** C10, as the code has it.  The clean-up deletes every run of three or
    more [=], wherever it stands: its result never holds [===], and, on a
    text that is clean otherwise, a run between two texts, be they parts of
    a word or of a link target, goes and nothing else changes.  The image
    rewrite reads the text that the deletion has left: on a text that is
    clean otherwise it gives the first image link without a label the label
    of the pattern and changes nothing else, and where the deletion leaves
    no [![](] it changes nothing at all. *)
Theorem clean_markdown_equals_runs_and_images :
  (forall text, contains (py "===") (clean_markdown text) = false)
  /\ (forall a b k,
         3 <= k ->
         contains [NL; NL; NL] (a ++ repeat EQUALS k ++ b) = false ->
         (forall line, In line (split [NL] (a ++ repeat EQUALS k ++ b)) ->
                       strip line = line) ->
         (forall a', a <> a' ++ [EQUALS]) -> (forall b', b <> EQUALS :: b') ->
         contains (py "===") a = false -> contains (py "===") b = false ->
         contains (py "![](") (a ++ b) = false ->
         strip (a ++ b) = a ++ b ->
         clean_markdown (a ++ repeat EQUALS k ++ b) = a ++ b)
  /\ (forall a x b,
         contains [NL; NL; NL] (a ++ py "![](" ++ x ++ RPAREN :: b) = false ->
         (forall line,
             In line (split [NL] (a ++ py "![](" ++ x ++ RPAREN :: b)) ->
             strip line = line) ->
         contains (py "===") (a ++ py "![](" ++ x ++ RPAREN :: b) = false ->
         contains (py "![](") (a ++ py "![]") = false ->
         Forall (fun c => c <> RPAREN /\ c <> NL) x ->
         contains (py "![](") b = false ->
         strip (a ++ py "![图片](" ++ x ++ RPAREN :: b)
         = a ++ py "![图片](" ++ x ++ RPAREN :: b ->
         clean_markdown (a ++ py "![](" ++ x ++ RPAREN :: b)
         = a ++ py "![图片](" ++ x ++ RPAREN :: b)
  /\ (forall text,
         contains [NL; NL; NL] text = false ->
         (forall line, In line (split [NL] text) -> strip line = line) ->
         contains (py "![](") (sub_run EQUALS 3 [] text) = false ->
         clean_markdown text = strip (sub_run EQUALS 3 [] text)).
Proof.
  split; [|split; [|split]].
  - intros text. apply run_free_contains with (n := 0).
    apply clean_markdown_run_free.
  - intros a b k Hk Hnl Hlines Ha Hb Hea Heb Himg Hstrip.
    rewrite (@clean_markdown_on_clean_lines _ Hnl Hlines).
    rewrite (@sub_run_deletes EQUALS a b k Hk Ha Hb).
    rewrite (@sub_run_id EQUALS [] a Hea), (@sub_run_id EQUALS [] b Heb).
    now rewrite (@relabel_images_id _ Himg).
  - intros a x b Hnl Hlines Heq Ha Hx Hb Hstrip.
    rewrite (@clean_markdown_on_clean_lines _ Hnl Hlines).
    rewrite (@sub_run_id EQUALS [] _ Heq).
    rewrite (@relabel_images_first a x b Ha Hx).
    now rewrite (@relabel_images_id _ Hb).
  - intros text Hnl Hlines Himg.
    rewrite (@clean_markdown_on_clean_lines _ Hnl Hlines).
    now rewrite (@relabel_images_id _ Himg).
Qed.

(** C10 as stated fails: the label of this image link is [===], not empty,
    and the text holds no [![](]; yet the clean-up gives the link the label
    of the pattern, for the deletion of the run empties the label first. *)
Lemma labelled_image_is_relabelled :
  contains (py "![](") (py "![===](a.png)") = false
  /\ clean_markdown (py "![===](a.png)") = py "![图片](a.png)".
Proof. split; reflexivity. Qed.

(** C10 on a link whose target holds a run, and on an image without a
    label between two words. *)
Lemma clean_markdown_equals_runs_and_images_link :
  clean_markdown (py "[a](http://x.io/?q" ++ repeat EQUALS 3 ++ py "1)")
  = py "[a](http://x.io/?q" ++ py "1)"
  /\ clean_markdown (py "see " ++ py "![](" ++ py "a.png" ++ RPAREN :: py " here")
     = py "see " ++ py "![图片](" ++ py "a.png" ++ RPAREN :: py " here".
Proof.
  destruct clean_markdown_equals_runs_and_images as (_ & Hrun & Himg & _).
  split.
  - apply Hrun.
    + lia.
    + reflexivity.
    + intros line Hin. vm_compute in Hin.
      repeat (destruct Hin as [<-|Hin]; [reflexivity|]). destruct Hin.
    + intros a' H. apply (f_equal (fun l => last l 0%N)) in H.
      rewrite last_last in H. vm_compute in H. discriminate.
    + intros b' H. vm_compute in H. discriminate.
    + reflexivity.
    + reflexivity.
    + reflexivity.
    + reflexivity.
  - apply Himg.
    + reflexivity.
    + intros line Hin. vm_compute in Hin.
      repeat (destruct Hin as [<-|Hin]; [reflexivity|]). destruct Hin.
    + reflexivity.
    + reflexivity.
    + repeat constructor; vm_compute; discriminate.
    + reflexivity.
    + reflexivity.
Defined.
